(** * GPT-Researcher: HTTP demonstration client, server launcher and the
      report-orchestration core behind them

    The file has two halves.

    - [Client] and [Launcher] embed [tutorial_poc.py] and
      [backend/run_server.py].  A client method is a small program over two
      effects (one HTTP exchange on the [requests.Session], one binary file
      read); [exec] runs such a program against an arbitrary server and
      records the requests that went out.
    - [Core] is the job orchestrator, report store and chat-session store
      that the launcher starts as [server.app:app].  Only the launcher and
      the client are embedded from code; [Core] follows the design document,
      and each of its definitions names the section it follows. *)

From Stdlib Require Import ZArith String Ascii List Lia.
From stdpp Require Import gmap strings list fin_maps.

Local Open Scope string_scope.
Local Open Scope Z_scope.

(** ** Values exchanged with the server *)

Set Warnings "-register-all".

(** Python values that travel as JSON: [None], booleans, integers, strings,
    lists and insertion-ordered dictionaries. *)
Inductive JSON : Type :=
| JNull
| JBool (b : bool)
| JInt (z : Z)
| JStr (s : string)
| JList (l : list JSON)
| JDict (l : list (string * JSON)).

Abbreviation bytes := (list Byte.byte).

Inductive Method : Type := GET | POST | PUT | DELETE.

(** The keyword arguments of one [session.get/post/put/delete] call.  Absent
    keywords are [None], [[]] or [false]. *)
Record Request : Type := mkRequest {
  req_method  : Method;
  req_url     : string;
  req_params  : list (string * string);
  req_json    : option JSON;
  req_headers : list (string * string);
  req_files   : list (string * (string * bytes));
  req_stream  : bool
}.

Record Response : Type := mkResponse {
  status_code  : Z;
  resp_headers : list (string * string);
  content      : bytes
}.

Inductive Exn : Type :=
| JSONDecodeError
| FileNotFoundError (path : string).

(** ** Client programs *)

(** One constructor per effect the client performs. *)
Inductive Prog (A : Type) : Type :=
| Ret (a : A)
| Raise (e : Exn)
| Send (req : Request) (k : Response -> Prog A)
| OpenRb (path : string) (k : bytes -> Prog A).

Arguments Ret {A} a.
Arguments Raise {A} e.
Arguments Send {A} req k.
Arguments OpenRb {A} path k.

Inductive Outcome (A : Type) : Type :=
| Returned (a : A)
| Raised (e : Exn).

Arguments Returned {A} a.
Arguments Raised {A} e.

(** What a server (and the local file system) answers, as a function of a
    world state the client cannot see. *)
Record Handlers (World : Type) : Type := mkHandlers {
  http    : Request -> World -> Response * World;
  open_rb : string -> World -> option bytes
}.

Arguments http {World} h req w.
Arguments open_rb {World} h path w.

(** [exec h p w] runs [p]; the result is the outcome, the requests sent in
    order, and the world afterwards.  It covers the runs in which every call
    of the session returns a response; [Demo.play] also covers a call that
    raises instead. *)
Fixpoint exec {World A : Type} (h : Handlers World) (p : Prog A) (w : World)
  : Outcome A * list Request * World :=
  match p with
  | Ret a => (Returned a, [], w)
  | Raise e => (Raised e, [], w)
  | Send req k =>
      let '(resp, w1) := http h req w in
      let '(o, tr, w2) := exec h (k resp) w1 in
      (o, req :: tr, w2)
  | OpenRb path k =>
      match open_rb h path w with
      | Some b => exec h (k b) w
      | None => (Raised (FileNotFoundError path), [], w)
      end
  end.

(** The requests a run sends, and what the caller gets back. *)
Definition sent {World A : Type} (h : Handlers World) (p : Prog A) (w : World)
  : list Request := snd (fst (exec h p w)).

Definition result {World A : Type} (h : Handlers World) (p : Prog A) (w : World)
  : Outcome A := fst (fst (exec h p w)).

(** ** [os.path.basename] (posixpath)

    [i = p.rfind('/') + 1; return p[i:]] *)

(** [str.rfind]: highest index of [c] in [p], or [-1]. *)
Fixpoint rfind (c : ascii) (p : string) : Z :=
  match p with
  | EmptyString => -1
  | String a s =>
      let r := rfind c s in
      if 0 <=? r then r + 1
      else if Ascii.eqb a c then 0 else -1
  end.

(** [p[i:]] for [0 <= i]. *)
Fixpoint slice_from (i : nat) (p : string) : string :=
  match i, p with
  | O, _ => p
  | S j, EmptyString => EmptyString
  | S j, String _ s => slice_from j s
  end.

(** [p[:i]] for [0 <= i]. *)
Fixpoint slice_to (i : nat) (p : string) : string :=
  match i, p with
  | O, _ => EmptyString
  | S j, EmptyString => EmptyString
  | S j, String a s => String a (slice_to j s)
  end.

Definition basename (p : string) : string :=
  slice_from (Z.to_nat (rfind "/"%char p + 1)) p.

(** The directory part that [basename] drops. *)
Definition dirpart (p : string) : string :=
  slice_to (Z.to_nat (rfind "/"%char p + 1)) p.

Fixpoint occurs (c : ascii) (p : string) : bool :=
  match p with
  | EmptyString => false
  | String a s => Ascii.eqb a c || occurs c s
  end.

Fixpoint last_char (p : string) : option ascii :=
  match p with
  | EmptyString => None
  | String a EmptyString => Some a
  | String _ s => last_char s
  end.

(** ** [tutorial_poc.py]: class [GPTResearcherClient] *)

Module Client.

Record GPTResearcherClient : Type := mkClient { base_url : string }.

(** [__init__(self, base_url="http://localhost:11250")]; [None] is the call
    that leaves the argument out. *)
Definition init (url : option string) : GPTResearcherClient :=
  mkClient (default "http://localhost:11250" url).

(** [os.getenv(key, dflt)] over the process environment. *)
Definition getenv (environ : gmap string string) (key dflt : string) : string :=
  default dflt (environ !! key).

(** The first two statements of [main()]: the target is read from
    [GPTR_API_URL] and handed to the constructor. *)
Definition main_client (environ : gmap string string) : GPTResearcherClient :=
  let url := getenv environ "GPTR_API_URL" "http://localhost:11250" in
  init (Some url).

(** A call that passes only the method and the URL. *)
Definition plain (m : Method) (url : string) : Request :=
  mkRequest m url [] None [] [] false.

(** Truthiness of an [Optional[str]]: [None] and [""] are false. *)
Definition truthy (s : option string) : bool :=
  match s with
  | Some (String _ _) => true
  | _ => false
  end.

(** [response.headers] and [dict(response.headers)].  [resp_headers] holds
    the header lines in the order received.  The mapping the library builds
    from them compares names without regard to case, keeps a name as first
    spelled, and joins the values of repeated names with a comma and a space;
    [dict(...)] copies that mapping.  Header names are ASCII, so lower case
    is taken on the letters A to Z. *)
Definition lower_char (c : ascii) : ascii :=
  let n := nat_of_ascii c in
  if ((65 <=? n) && (n <=? 90))%nat then ascii_of_nat (n + 32) else c.

Fixpoint lower (s : string) : string :=
  match s with
  | EmptyString => EmptyString
  | String c rest => String (lower_char c) (lower rest)
  end.

Fixpoint add_header (k v : string) (acc : list (string * string))
  : list (string * string) :=
  match acc with
  | [] => [(k, v)]
  | (k0, v0) :: rest =>
      if String.eqb (lower k0) (lower k) then (k0, v0 +:+ ", " +:+ v) :: rest
      else (k0, v0) :: add_header k v rest
  end.

Definition headers_dict (lines : list (string * string))
  : list (string * string) :=
  fold_left (fun acc kv => add_header (fst kv) (snd kv) acc) lines [].


Section Methods.

(** [response.json()], a function of the body alone; [None] stands for the
    [JSONDecodeError] raised on a body that is not JSON. *)
Variable json_loads : bytes -> option JSON.

Definition response_json (r : Response) : Prog JSON :=
  match json_loads (content r) with
  | Some j => Ret j
  | None => Raise JSONDecodeError
  end.

(** What a caller of [response.json()] ends up with. *)
Definition decoded (r : Response) : Outcome JSON :=
  match json_loads (content r) with
  | Some j => Returned j
  | None => Raised JSONDecodeError
  end.

Definition health_check (self : GPTResearcherClient) : Prog JSON :=
  Send (plain GET (base_url self +:+ "/")) (fun response =>
  Ret (JDict [("status", JInt (status_code response));
              ("headers", JDict (map (fun kv => (fst kv, JStr (snd kv)))
                                     (headers_dict (resp_headers response))))])).

Definition get_reports (self : GPTResearcherClient) (report_ids : option string)
  : Prog JSON :=
  let url := base_url self +:+ "/api/reports" in
  let url := if truthy report_ids
             then url +:+ "?report_ids=" +:+ default "" report_ids
             else url in
  Send (plain GET url) response_json.

Definition get_report_by_id (self : GPTResearcherClient) (research_id : string)
  : Prog JSON :=
  Send (plain GET (base_url self +:+ "/api/reports/" +:+ research_id))
       response_json.

(** The [payload] dictionary of [create_report]; every keyword left out takes
    the default of the signature. *)
Definition create_report_payload (task : string)
    (report_type report_source tone : option string) (headers : option JSON)
    (repo_name branch_name : option string)
    (generate_in_background : option bool) : list (string * JSON) :=
  [("task", JStr task);
   ("report_type", JStr (default "research_report" report_type));
   ("report_source", JStr (default "web" report_source));
   ("tone", JStr (default "objective" tone));
   ("headers", default JNull headers);
   ("repo_name", JStr (default "default" repo_name));
   ("branch_name", JStr (default "main" branch_name));
   ("generate_in_background", JBool (default true generate_in_background))].

Definition create_report (self : GPTResearcherClient) (task : string)
    (report_type report_source tone : option string) (headers : option JSON)
    (repo_name branch_name : option string)
    (generate_in_background : option bool) : Prog JSON :=
  let payload := create_report_payload task report_type report_source tone
                   headers repo_name branch_name generate_in_background in
  Send (mkRequest POST (base_url self +:+ "/report/") []
          (Some (JDict payload)) [("Content-Type", "application/json")] []
          false)
       response_json.

Definition update_report (self : GPTResearcherClient) (research_id : string)
    (data : JSON) : Prog JSON :=
  Send (mkRequest PUT (base_url self +:+ "/api/reports/" +:+ research_id) []
          (Some data) [] [] false)
       response_json.

Definition delete_report (self : GPTResearcherClient) (research_id : string)
  : Prog JSON :=
  Send (plain DELETE (base_url self +:+ "/api/reports/" +:+ research_id))
       response_json.

Definition get_report_chat (self : GPTResearcherClient) (research_id : string)
  : Prog JSON :=
  Send (plain GET (base_url self +:+ "/api/reports/" +:+ research_id +:+ "/chat"))
       response_json.

Definition add_chat_message (self : GPTResearcherClient) (research_id : string)
    (message : JSON) : Prog JSON :=
  Send (mkRequest POST
          (base_url self +:+ "/api/reports/" +:+ research_id +:+ "/chat") []
          (Some message) [] [] false)
       response_json.

Definition chat (self : GPTResearcherClient) (report : string)
    (messages : list JSON) : Prog JSON :=
  let payload := [("report", JStr report); ("messages", JList messages)] in
  Send (mkRequest POST (base_url self +:+ "/api/chat") []
          (Some (JDict payload)) [] [] false)
       response_json.

Definition list_files (self : GPTResearcherClient) (doc_path : option string)
  : Prog JSON :=
  Send (mkRequest GET (base_url self +:+ "/files/")
          [("path", default "./my-docs" doc_path)] None [] [] false)
       response_json.

Definition upload_file (self : GPTResearcherClient) (file_path : string)
    (doc_path : option string) : Prog JSON :=
  OpenRb file_path (fun f =>
  let files := [("file", (basename file_path, f))] in
  Send (mkRequest POST (base_url self +:+ "/upload/")
          [("path", default "./my-docs" doc_path)] None [] files false)
       response_json).

Definition delete_file (self : GPTResearcherClient) (filename : string)
    (doc_path : option string) : Prog JSON :=
  Send (mkRequest DELETE (base_url self +:+ "/files/" +:+ filename)
          [("path", default "./my-docs" doc_path)] None [] [] false)
       response_json.

Definition get_report_docx (self : GPTResearcherClient) (research_id : string)
  : Prog (option bytes) :=
  Send (mkRequest GET (base_url self +:+ "/report/" +:+ research_id)
          [] None [] [] true)
       (fun response =>
          if status_code response =? 200 then Ret (Some (content response))
          else Ret None).

(** A call of any method except [health_check] and [get_report_docx], with
    its arguments. *)
Inductive Call : Type :=
| CallGetReports (report_ids : option string)
| CallGetReportById (research_id : string)
| CallCreateReport (task : string)
    (report_type report_source tone : option string) (headers : option JSON)
    (repo_name branch_name : option string)
    (generate_in_background : option bool)
| CallUpdateReport (research_id : string) (data : JSON)
| CallDeleteReport (research_id : string)
| CallGetReportChat (research_id : string)
| CallAddChatMessage (research_id : string) (message : JSON)
| CallChat (report : string) (messages : list JSON)
| CallListFiles (doc_path : option string)
| CallUploadFile (file_path : string) (doc_path : option string)
| CallDeleteFile (filename : string) (doc_path : option string).

Definition invoke (self : GPTResearcherClient) (c : Call) : Prog JSON :=
  match c with
  | CallGetReports ids => get_reports self ids
  | CallGetReportById rid => get_report_by_id self rid
  | CallCreateReport t rt rs tn h rn bn bg =>
      create_report self t rt rs tn h rn bn bg
  | CallUpdateReport rid d => update_report self rid d
  | CallDeleteReport rid => delete_report self rid
  | CallGetReportChat rid => get_report_chat self rid
  | CallAddChatMessage rid m => add_chat_message self rid m
  | CallChat r ms => chat self r ms
  | CallListFiles dp => list_files self dp
  | CallUploadFile fp dp => upload_file self fp dp
  | CallDeleteFile fn dp => delete_file self fn dp
  end.

End Methods.

(** The handler that answers like [h] but reports the status [f req w]
    instead of the one [h] chose. *)
Definition restatus {World : Type} (f : Request -> World -> Z)
    (h : Handlers World) : Handlers World :=
  mkHandlers World
    (fun req w =>
       let '(r, w1) := http h req w in
       (mkResponse (f req w) (resp_headers r) (content r), w1))
    (open_rb h).

(** A one-file world: [/srv/in/paper.pdf] holds two bytes, every request is
    answered 404 with the body [{}]. *)
Definition one_file : Handlers unit :=
  mkHandlers unit
    (fun _ w => (mkResponse 404 [] [Byte.x7b; Byte.x7d], w))
    (fun path _ => if String.eqb path "/srv/in/paper.pdf"
                   then Some [Byte.x25; Byte.x50] else None).

(** A decoder that knows the empty object and nothing else. *)
Definition toy_loads (body : bytes) : option JSON :=
  match body with
  | [Byte.x7b; Byte.x7d] => Some (JDict [])
  | _ => None
  end.

End Client.

(** ** [backend/run_server.py] *)

Module Launcher.

(** The options given on the command line, after [argparse] has split it. *)
Record CommandLine : Type := mkCommandLine {
  host_arg : option string;
  port_arg : option Z
}.

Record Namespace : Type := mkNamespace { host : string; port : Z }.

(** [parser.parse_args()] with the two [add_argument] defaults. *)
Definition parse_args (cl : CommandLine) : Namespace :=
  mkNamespace (default "0.0.0.0" (host_arg cl)) (default 8000 (port_arg cl)).

(** The arguments [uvicorn.run] is called with. *)
Record UvicornRun : Type := mkUvicornRun {
  run_app : string;
  run_host : string;
  run_port : Z;
  run_reload : bool;
  run_log_level : string
}.

Definition run_server (cl : CommandLine) : UvicornRun :=
  let args := parse_args cl in
  mkUvicornRun "server.app:app" (host args) (port args) true "info".

(** Value of a string of decimal digits, most significant first. *)
Fixpoint decimal (acc : Z) (s : string) : option Z :=
  match s with
  | EmptyString => Some acc
  | String c rest =>
      let n := Z.of_nat (nat_of_ascii c) in
      if (48 <=? n) && (n <=? 57) then decimal (10 * acc + (n - 48)) rest
      else None
  end.

(** The port a URL of the shape [scheme://host:port] names. *)
Definition url_port (url : string) : option Z :=
  match slice_from (Z.to_nat (rfind ":"%char url + 1)) url with
  | EmptyString => None
  | digits => decimal 0 digits
  end.

End Launcher.

(** ** The orchestration core ([server.app], described by the design document) *)

Module Core.

Local Open Scope nat_scope.
Local Open Scope list_scope.

Inductive Status : Type := Pending | Running | Completed | Failed.

Inductive Error : Type :=
| InvalidRequest | NotFound | NotReady | Forbidden | IOFailure
| GenerationFailure.

Inductive Result (A : Type) : Type :=
| Ok (a : A)
| Err (e : Error).

Arguments Ok {A} a.
Arguments Err {A} e.

Inductive Role : Type := User | Assistant.

(** Modelled from the spec: the ResearchJob/Report entity of section 3; the
    record type of [server.app] is missing.  [metadata] holds the externally
    mutable fields that section 4.2 calls metadata, one entry per field. *)
Record Report : Type := mkReport {
  id : nat;
  task : string;
  report_type : string;
  report_source : string;
  tone : string;
  status : Status;
  content : option string;
  error : option string;
  created_at : nat;
  updated_at : nat;
  metadata : gmap string string
}.

(** Modelled from the spec: the ChatTurn entity of section 3. *)
Record ChatTurn : Type := mkChatTurn {
  role : Role;
  turn_content : string;
  sequence : nat
}.

(** Modelled from the spec: the body of a generation request (section 6,
    create report), as far as [submit] reads it. *)
Record SubmitRequest : Type := mkSubmitRequest {
  sr_task : string;
  sr_report_type : string;
  sr_report_source : string;
  sr_tone : string;
  sr_generate_in_background : bool
}.

(** Modelled from the spec: what the design leaves to the deployment, namely
    the three enumerations [submit] validates against, the bound on the chat
    context window and the external chat generation function (report text,
    recent turns, new message; [None] when it fails). *)
Record Config : Type := mkConfig {
  report_types : list string;
  report_sources : list string;
  tones : list string;
  context_limit : nat;
  chat_fn : string -> list ChatTurn -> string -> option string
}.

(** A generation task is launched by [submit] and started later. *)
Inductive Phase : Type := Launched | Started.

(** Modelled from the spec: the process-wide state of sections 2 and 9: the
    identifier allocator, a logical clock for the timestamps, the Report
    Store, the Chat Session Store and the generation tasks in flight, each
    bound to the identifier it was launched for. *)
Record State : Type := mkState {
  next_id : nat;
  clock : nat;
  reports : gmap nat Report;
  chats : gmap nat (list ChatTurn);
  tasks : list (nat * Phase)
}.

Definition init : State := mkState 0 0 ∅ ∅ [].

Definition set_status (st : Status) (now : nat) (r : Report) : Report :=
  mkReport (id r) (task r) (report_type r) (report_source r) (tone r)
    st (content r) (error r) (created_at r) now (metadata r).

Definition set_content (c : string) (r : Report) : Report :=
  mkReport (id r) (task r) (report_type r) (report_source r) (tone r)
    (status r) (Some c) (error r) (created_at r) (updated_at r) (metadata r).

Definition set_error (e : string) (r : Report) : Report :=
  mkReport (id r) (task r) (report_type r) (report_source r) (tone r)
    (status r) (content r) (Some e) (created_at r) (updated_at r) (metadata r).

Definition set_metadata (k v : string) (r : Report) : Report :=
  mkReport (id r) (task r) (report_type r) (report_source r) (tone r)
    (status r) (content r) (error r) (created_at r) (updated_at r)
    (<[k:=v]> (metadata r)).

Definition touch (now : nat) (r : Report) : Report :=
  mkReport (id r) (task r) (report_type r) (report_source r) (tone r)
    (status r) (content r) (error r) (created_at r) now (metadata r).

Definition mem (x : string) (l : list string) : bool :=
  existsb (String.eqb x) l.

(** Modelled from the spec: the validation of [submit] (section 4.1): [task]
    non-empty, the three selections within their enumerations. *)
Definition valid (cfg : Config) (req : SubmitRequest) : bool :=
  negb (String.eqb (sr_task req) "")
  && mem (sr_report_type req) (report_types cfg)
  && mem (sr_report_source req) (report_sources cfg)
  && mem (sr_tone req) (tones cfg).

(** Modelled from the spec: [submit] (section 4.1): allocate a fresh
    identifier, insert a pending Report, launch the task bound to it, return
    the identifier.  In the synchronous mode the caller then waits for the
    task's two steps; the admission itself is the same. *)
Definition submit (cfg : Config) (req : SubmitRequest) (s : State)
  : Result nat * State :=
  if valid cfg req then
    let i := next_id s in
    let r := mkReport i (sr_task req) (sr_report_type req)
               (sr_report_source req) (sr_tone req) Pending None None
               (clock s) (clock s) ∅ in
    (Ok i, mkState (S i) (S (clock s)) (<[i:=r]> (reports s)) (chats s)
             (tasks s ++ [(i, Launched)]))
  else (Err InvalidRequest, s).

Definition task_phase (i : nat) (ts : list (nat * Phase)) : option Phase :=
  snd <$> find (fun t => fst t =? i) ts.

(** Modelled from the spec: the first step of the task lifecycle (section
    4.1): on start the Report goes to [running].  A write to an identifier
    that was deleted meanwhile is dropped (section 5). *)
Definition task_start (i : nat) (s : State) : State :=
  match task_phase i (tasks s) with
  | Some Launched =>
      mkState (next_id s) (S (clock s))
        (alter (set_status Running (clock s)) i (reports s)) (chats s)
        (map (fun t => if fst t =? i then (i, Started) else t) (tasks s))
  | _ => s
  end.

(** What the Generation Procedure hands back: report text or an error. *)
Definition finish (outcome : string + string) (now : nat) (r : Report)
  : Report :=
  match outcome with
  | inl text => set_status Completed now (set_content text r)
  | inr e => set_status Failed now (set_error e r)
  end.

(** Modelled from the spec: the last step of the task lifecycle (section
    4.1): on success write [content] and go to [completed], on failure write
    [error] and go to [failed]; the task is then no longer in flight.  There
    is no retry. *)
Definition task_finish (i : nat) (outcome : string + string) (s : State)
  : State :=
  match task_phase i (tasks s) with
  | Some Started =>
      mkState (next_id s) (S (clock s))
        (alter (finish outcome (clock s)) i (reports s)) (chats s)
        (filter (fun t => fst t ≠ i) (tasks s))
  | _ => s
  end.

(** Modelled from the spec: [get_status] (section 4.1). *)
Definition get_status (i : nat) (s : State) : Result Report :=
  match reports s !! i with
  | Some r => Ok r
  | None => Err NotFound
  end.

(** The fields of section 3 that a client may not write: everything the data
    model names except [content]. *)
Definition protected (k : string) : bool :=
  mem k ["id"; "task"; "report_type"; "report_source"; "tone"; "status";
         "error"; "created_at"; "updated_at"]%string.

Definition apply_field (r : Report) (kv : string * string) : Report :=
  if String.eqb (fst kv) "content" then set_content (snd kv) r
  else set_metadata (fst kv) (snd kv) r.

Definition has_content (fields : list (string * string)) : bool :=
  existsb (fun kv => String.eqb (fst kv) "content") fields.

Definition completed (r : Report) : bool :=
  match status r with
  | Completed => true
  | _ => false
  end.

(** The field mutations [update] refuses: a field the data model protects,
    and [content] on a report that is not completed, where section 3 allows
    no content. *)
Definition forbidden (r : Report) (fields : list (string * string)) : bool :=
  existsb (fun kv => protected (fst kv)) fields
  || (has_content fields && negb (completed r)).

(** Modelled from the spec: [update] of the Report Store (section 4.2):
    only content and metadata fields are externally mutable, anything else is
    [Forbidden]; [content] is "present only when status = completed" (section
    3), so writing it on a report in another state is a disallowed field
    mutation as well; fields are written one by one, the last write
    winning. *)
Definition update (i : nat) (fields : list (string * string)) (s : State)
  : Result Report * State :=
  match reports s !! i with
  | None => (Err NotFound, s)
  | Some r =>
      if forbidden r fields then (Err Forbidden, s)
      else
        let r' := touch (clock s) (fold_left apply_field fields r) in
        (Ok r', mkState (next_id s) (S (clock s)) (<[i:=r']> (reports s))
                  (chats s) (tasks s))
  end.

(** Modelled from the spec: [delete] of the Report Store (sections 4.2 and
    5): unknown or already deleted identifiers fail with [NotFound]; the
    chat transcript goes with the report; a task still in flight is detached,
    that is, it keeps running and its later writes find no report. *)
Definition delete (i : nat) (s : State) : Result unit * State :=
  match reports s !! i with
  | None => (Err NotFound, s)
  | Some _ =>
      (Ok tt, mkState (next_id s) (S (clock s)) (base.delete i (reports s))
                (base.delete i (chats s)) (tasks s))
  end.

Definition transcript (i : nat) (s : State) : list ChatTurn :=
  default [] (chats s !! i).

(** Largest [sequence] in a transcript, [0] for the empty one. *)
Definition max_sequence (ts : list ChatTurn) : nat :=
  foldr (fun t m => Nat.max (sequence t) m) 0 ts.

(** Modelled from the spec: [append] of the Chat Session Store (section
    4.3, with the error taxonomy of section 7): [NotFound] without a stored
    report, [NotReady] while the report is pending or running, otherwise the
    turn is appended with [sequence = max existing + 1].  The section names
    no failure for a report that has failed, so none is modelled. *)
Definition append (i : nat) (rl : Role) (text : string) (s : State)
  : Result ChatTurn * State :=
  match reports s !! i with
  | None => (Err NotFound, s)
  | Some r =>
      match status r with
      | Pending | Running => (Err NotReady, s)
      | Completed | Failed =>
          let ts := transcript i s in
          let t := mkChatTurn rl text (S (max_sequence ts)) in
          (Ok t, mkState (next_id s) (clock s) (reports s)
                   (<[i:=ts ++ [t]]> (chats s)) (tasks s))
      end
  end.

(** Modelled from the spec: [get_transcript] (section 4.3). *)
Definition get_transcript (i : nat) (s : State) : list ChatTurn :=
  transcript i s.

(** The most recent [n] turns. *)
Definition recent (n : nat) (ts : list ChatTurn) : list ChatTurn :=
  drop (length ts - n) ts.

(** Modelled from the spec: [ask] of the Chat Engine (section 4.3): bounded
    context, one call of the external function, then the user turn and the
    assistant turn are appended together or not at all. *)
Definition ask (cfg : Config) (report_text : string) (ts : list ChatTurn)
    (new_user_message : string) : Result (ChatTurn * list ChatTurn) :=
  match chat_fn cfg report_text (recent (context_limit cfg) ts)
          new_user_message with
  | None => Err GenerationFailure
  | Some answer =>
      let u := mkChatTurn User new_user_message (S (max_sequence ts)) in
      let a := mkChatTurn Assistant answer (S (max_sequence (ts ++ [u]))) in
      Ok (a, ts ++ [u; a])
  end.

(** Modelled from the spec: [ask] against a stored report, under the same
    admission rule as [append] (section 8). *)
Definition ask_report (cfg : Config) (i : nat) (new_user_message : string)
    (s : State) : Result ChatTurn * State :=
  match reports s !! i with
  | None => (Err NotFound, s)
  | Some r =>
      match status r with
      | Pending | Running => (Err NotReady, s)
      | Completed | Failed =>
          match ask cfg (default "" (content r)) (transcript i s)
                  new_user_message with
          | Err e => (Err e, s)
          | Ok (a, ts') =>
              (Ok a, mkState (next_id s) (clock s) (reports s)
                       (<[i:=ts']> (chats s)) (tasks s))
          end
      end
  end.

(** Everything that can happen to the core: a client operation or one step
    of a generation task.  Operations on one identifier are serialized
    (section 5), so a history is a list of these. *)
Inductive Op : Type :=
| OpSubmit (req : SubmitRequest)
| OpTaskStart (i : nat)
| OpTaskFinish (i : nat) (outcome : string + string)
| OpGetStatus (i : nat)
| OpUpdate (i : nat) (fields : list (string * string))
| OpDelete (i : nat)
| OpAppend (i : nat) (rl : Role) (text : string)
| OpAsk (i : nat) (new_user_message : string)
| OpGetTranscript (i : nat).

Definition apply (cfg : Config) (op : Op) (s : State) : State :=
  match op with
  | OpSubmit req => snd (submit cfg req s)
  | OpTaskStart i => task_start i s
  | OpTaskFinish i outcome => task_finish i outcome s
  | OpGetStatus _ => s
  | OpUpdate i fields => snd (update i fields s)
  | OpDelete i => snd (delete i s)
  | OpAppend i rl text => snd (append i rl text s)
  | OpAsk i m => snd (ask_report cfg i m s)
  | OpGetTranscript _ => s
  end.

Definition run (cfg : Config) (ops : list Op) (s : State) : State :=
  fold_left (fun s op => apply cfg op s) ops s.

(** One step along [pending -> running -> completed | failed]. *)
Definition chain_step (a b : Status) : bool :=
  match a, b with
  | Pending, Running | Running, Completed | Running, Failed => true
  | _, _ => false
  end.

(** How far along the chain a status is. *)
Definition rank (a : Status) : nat :=
  match a with
  | Pending => 0
  | Running => 1
  | Completed | Failed => 2
  end.

(** What one operation may do to the report stored under one identifier:
    leave its status alone, move it one step along the chain, create it as
    pending, or remove it. *)
Definition status_step (before after : option Report) : Prop :=
  match before, after with
  | Some r, Some r' =>
      status r' = status r ∨ chain_step (status r) (status r') = true
  | None, Some r' => status r' = Pending
  | _, None => True
  end.

(** The content/error invariant of section 3 on one report. *)
Definition report_ok (r : Report) : bool :=
  match status r with
  | Pending | Running => negb (bool_decide (is_Some (content r)))
                         && negb (bool_decide (is_Some (error r)))
  | Completed | Failed => xorb (bool_decide (is_Some (content r)))
                               (bool_decide (is_Some (error r)))
  end.

Definition store_ok (s : State) : Prop :=
  ∀ i r, reports s !! i = Some r → report_ok r = true.

(** Section 3 field by field: content is present exactly on a completed
    report and error exactly on a failed one. *)
Definition report_settled (r : Report) : bool :=
  match status r with
  | Pending | Running => negb (bool_decide (is_Some (content r)))
                         && negb (bool_decide (is_Some (error r)))
  | Completed => bool_decide (is_Some (content r))
                 && negb (bool_decide (is_Some (error r)))
  | Failed => negb (bool_decide (is_Some (content r)))
              && bool_decide (is_Some (error r))
  end.

Definition store_settled (s : State) : Prop :=
  ∀ i r, reports s !! i = Some r → report_settled r = true.

(** Identifiers of the generation tasks in flight. *)
Definition task_ids (s : State) : list nat := map fst (tasks s).

(** Sequence numbers run 1, 2, 3, ... along a transcript. *)
Definition gapless (ts : list ChatTurn) : Prop :=
  map sequence ts = seq 1 (length ts).

(** A small deployment and a request it accepts, for running the model. *)
Definition demo_config : Config :=
  mkConfig ["research_report"; "detailed_report"]%string
    ["web"; "local"; "hybrid"]%string ["objective"; "formal"]%string 8
    (fun _ _ question => Some ("Re: " +:+ question)%string).

Definition demo_request : SubmitRequest :=
  mkSubmitRequest "X" "research_report" "web" "objective" true.

(** What every reachable state satisfies: tasks in flight are bound to
    pairwise different identifiers, all of them already allocated; a stored
    report is pending while its task is launched and running once it has
    started; transcripts are numbered without gaps. *)
Record inv (s : State) : Prop := mkInv {
  inv_nodup : NoDup (task_ids s);
  inv_task_lt : ∀ i ph, In (i, ph) (tasks s) → i < next_id s;
  inv_report_lt : ∀ i r, reports s !! i = Some r → i < next_id s;
  inv_launched : ∀ i r, In (i, Launched) (tasks s) →
                        reports s !! i = Some r → status r = Pending;
  inv_started : ∀ i r, In (i, Started) (tasks s) →
                       reports s !! i = Some r → status r = Running;
  inv_chats : ∀ i ts, chats s !! i = Some ts → gapless ts
}.

End Core.

(** ** [tutorial_poc.py]: the demonstration script *)

Module Demo.
Import Client.

(** What can end a run of the script: an exception of a client method, or
    the [TypeError] of [in] and of indexing on a value of the wrong type. *)
Inductive PyExn : Type :=
| ClientExn (e : Exn)
| TypeError.

(** The script adds [print] to the effects of the client. *)
Inductive Script (A : Type) : Type :=
| Done (a : A)
| Fail (e : PyExn)
| Print (line : string) (k : Script A)
| Http (req : Request) (k : Response -> Script A)
| ReadRb (path : string) (k : bytes -> Script A).

Arguments Done {A} a.
Arguments Fail {A} e.
Arguments Print {A} line k.
Arguments Http {A} req k.
Arguments ReadRb {A} path k.

(** Call a client method and go on with what it returns. *)
Fixpoint call {A B : Type} (p : Prog A) (k : A -> Script B) : Script B :=
  match p with
  | Ret a => k a
  | Raise e => Fail (ClientExn e)
  | Send req c => Http req (fun r => call (c r) k)
  | OpenRb path c => ReadRb path (fun b => call (c b) k)
  end.

Fixpoint andthen {A B : Type} (s : Script A) (k : A -> Script B) : Script B :=
  match s with
  | Done a => k a
  | Fail e => Fail e
  | Print line c => Print line (andthen c k)
  | Http req c => Http req (fun r => andthen (c r) k)
  | ReadRb path c => ReadRb path (fun b => andthen (c b) k)
  end.

Inductive Ending (A : Type) : Type :=
| Finished (a : A)
| Crashed (e : PyExn).

Arguments Finished {A} a.
Arguments Crashed {A} e.

(** [run h s w]: how the script ends, what it printed (one entry per
    [print]), the requests it sent, and the world afterwards. *)
Fixpoint run {World A : Type} (h : Handlers World) (s : Script A) (w : World)
  : Ending A * list string * list Request * World :=
  match s with
  | Done a => (Finished a, [], [], w)
  | Fail e => (Crashed e, [], [], w)
  | Print line k =>
      let '(o, out, tr, w1) := run h k w in (o, line :: out, tr, w1)
  | Http req k =>
      let '(resp, w1) := http h req w in
      let '(o, out, tr, w2) := run h (k resp) w1 in
      (o, out, req :: tr, w2)
  | ReadRb path k =>
      match open_rb h path w with
      | Some b => run h (k b) w
      | None => (Crashed (ClientExn (FileNotFoundError path)), [], [], w)
      end
  end.

Definition ending {World A : Type} (h : Handlers World) (s : Script A)
    (w : World) : Ending A := fst (fst (fst (run h s w))).

Definition printed {World A : Type} (h : Handlers World) (s : Script A)
    (w : World) : list string := snd (fst (fst (run h s w))).

Definition requested {World A : Type} (h : Handlers World) (s : Script A)
    (w : World) : list Request := snd (fst (run h s w)).

(** The line feed that starts the section banners. *)
Definition nl : string := String (ascii_of_nat 10) EmptyString.

(** [needle in hay] on two strings: substring test. *)
Fixpoint contains (needle hay : string) : bool :=
  String.prefix needle hay
  || match hay with
     | EmptyString => false
     | String _ rest => contains needle rest
     end.

(** [key in v] for a string [key]: membership among the keys of a
    dictionary, among the elements of a list, substring of a string;
    [None] is the [TypeError] on a value that is not a container. *)
Definition py_in (key : string) (v : JSON) : option bool :=
  match v with
  | JDict l => Some (existsb (fun kv => String.eqb (fst kv) key) l)
  | JList l =>
      Some (existsb (fun x => match x with
                              | JStr s => String.eqb s key
                              | _ => false
                              end) l)
  | JStr s => Some (contains key s)
  | JNull | JBool _ | JInt _ => None
  end.

(** [d[key]] on a dictionary whose keys are pairwise different. *)
Fixpoint dict_get (key : string) (l : list (string * JSON)) : option JSON :=
  match l with
  | [] => None
  | (k, v) :: rest => if String.eqb k key then Some v else dict_get key rest
  end.

(** [v[key]] for a string [key]; [None] is the exception of a missing key
    or of a list or string indexed by a string. *)
Definition py_getitem (key : string) (v : JSON) : option JSON :=
  match v with
  | JDict l => dict_get key l
  | _ => None
  end.

(** Truth value of [if v:]. *)
Definition py_bool (v : JSON) : bool :=
  match v with
  | JNull => false
  | JBool b => b
  | JInt z => negb (z =? 0)%Z
  | JStr s => negb (String.eqb s "")
  | JList l => match l with [] => false | _ => true end
  | JDict l => match l with [] => false | _ => true end
  end.

Definition demo_task : string :=
  "What are the latest developments in large language models in 2024?".

Definition demo_messages : list JSON :=
  [JDict [("role", JStr "user");
          ("content", JStr "What is this report about?")];
   JDict [("role", JStr "assistant");
          ("content", JStr "This report covers the latest developments in large language models in 2024.")];
   JDict [("role", JStr "user");
          ("content", JStr "Can you summarize the key points?")]].

Section Script.

(** Library functions the script formats its output with:
    [json.loads] behind [response.json()], [json.dumps(v, indent=2)] and
    [str(v)] as an f-string renders a value. *)
Variable json_loads : bytes -> option JSON.
Variable json_dumps : JSON -> string.
Variable py_str : JSON -> string.

Definition demo_create_report (client : GPTResearcherClient) : Script JSON :=
  Print (nl +:+ "=== Creating a Research Report ===") (
  Print "This will create a new research task." (
  let task := demo_task in
  Print ("Task: " +:+ task) (
  call (create_report json_loads client task (Some "research_report")
          (Some "web") (Some "objective") None None None (Some true))
    (fun response =>
  Print ("Response: " +:+ json_dumps response) (
  match py_in "research_id" response with
  | None => Fail TypeError
  | Some true =>
      match py_getitem "research_id" response with
      | Some v => Done v
      | None => Fail TypeError
      end
  | Some false => Done JNull
  end))))).

Definition demo_chat (client : GPTResearcherClient) (report : string)
    (research_id : string) : Script unit :=
  Print (nl +:+ "=== Chat with Report ===") (
  Print "This will chat about the report content." (
  let messages := demo_messages in
  call (chat json_loads client report messages) (fun response =>
  Print ("Response: " +:+ json_dumps response) (
  Done tt)))).

Definition demo_list_reports (client : GPTResearcherClient) : Script unit :=
  Print (nl +:+ "=== Listing Reports ===") (
  call (get_reports json_loads client None) (fun response =>
  Print ("Reports: " +:+ json_dumps response) (
  Done tt))).

Definition demo_get_report (client : GPTResearcherClient)
    (research_id : string) : Script unit :=
  Print (nl +:+ "=== Getting Report: " +:+ research_id +:+ " ===") (
  call (get_report_by_id json_loads client research_id) (fun response =>
  Print ("Report: " +:+ json_dumps response) (
  Done tt))).

Definition main (environ : gmap string string) : Script unit :=
  let url := getenv environ "GPTR_API_URL" "http://localhost:11250" in
  Print ("Connecting to GPT-Researcher server at " +:+ url) (
  let client := init (Some url) in
  Print (nl +:+ "=== Health Check ===") (
  call (health_check client) (fun health =>
  Print ("Server Status: " +:+ py_str health) (
  andthen (demo_list_reports client) (fun _ =>
  andthen (demo_create_report client) (fun research_id =>
  andthen
    (if py_bool research_id then
       Print (nl +:+ "Report created with ID: " +:+ py_str research_id) (
       demo_list_reports client)
     else
       Print (nl +:+ "Failed to create report. Check the server logs for more information.") (
       Done tt))
    (fun _ =>
  Print (nl +:+ "=== Demo Complete ===") (
  Done tt)))))))).

End Script.

(** The three requests the script can send. *)
Definition health_request (client : GPTResearcherClient) : Request :=
  plain GET (base_url client +:+ "/").

Definition list_request (client : GPTResearcherClient) : Request :=
  plain GET (base_url client +:+ "/api/reports").

Definition create_request (client : GPTResearcherClient) : Request :=
  mkRequest POST (base_url client +:+ "/report/") []
    (Some (JDict (create_report_payload demo_task None None None None None
                    None None)))
    [("Content-Type", "application/json")] [] false.

(** A server that answers every request with 200 and one byte, and a
    decoder that reads that byte as a report that was created. *)
Definition created_server : Handlers unit :=
  mkHandlers unit (fun _ w => (mkResponse 200 [] [Byte.x31], w))
    (fun _ _ => None).

Definition created_loads (body : bytes) : option JSON :=
  match body with
  | [Byte.x31] => Some (JDict [("research_id", JStr "r1")])
  | _ => None
  end.

(** *** Runs in which the session may raise *)

(** A call of the session either returns a response or raises
    ([MissingSchema] for a URL without scheme, [ConnectionError] when nothing
    answers, ...): [answer] gives [None] for the second. *)
Record Net (World : Type) : Type := mkNet {
  answer : Request -> World -> option Response * World;
  read : string -> World -> option bytes
}.

Arguments answer {World} n req w.
Arguments read {World} n path w.

(** What happened, in order: a line printed, or a session call that
    returned. *)
Inductive Event : Type :=
| Said (line : string)
| Asked (req : Request).

(** How a run stops: the script ends, or a session call raises. *)
Inductive Stop (A : Type) : Type :=
| Ended (e : Ending A)
| NoResponse (req : Request).

Arguments Ended {A} e.
Arguments NoResponse {A} req.

Fixpoint play {World A : Type} (n : Net World) (s : Script A) (w : World)
  : Stop A * list Event * World :=
  match s with
  | Done a => (Ended (Finished a), [], w)
  | Fail e => (Ended (Crashed e), [], w)
  | Print line k =>
      let '(o, ev, w1) := play n k w in (o, Said line :: ev, w1)
  | Http req k =>
      match answer n req w with
      | (Some resp, w1) =>
          let '(o, ev, w2) := play n (k resp) w1 in (o, Asked req :: ev, w2)
      | (None, w1) => (NoResponse req, [], w1)
      end
  | ReadRb path k =>
      match read n path w with
      | Some b => play n (k b) w
      | None => (Ended (Crashed (ClientExn (FileNotFoundError path))), [], w)
      end
  end.

Definition stopped {World A : Type} (n : Net World) (s : Script A)
    (w : World) : Stop A := fst (fst (play n s w)).

Definition events {World A : Type} (n : Net World) (s : Script A)
    (w : World) : list Event := snd (fst (play n s w)).

(** The session calls of a log, and its lines. *)
Fixpoint asked (ev : list Event) : list Request :=
  match ev with
  | [] => []
  | Asked req :: rest => req :: asked rest
  | Said _ :: rest => asked rest
  end.

Fixpoint said (ev : list Event) : list string :=
  match ev with
  | [] => []
  | Said line :: rest => line :: said rest
  | Asked _ :: rest => said rest
  end.

(** The net of a server that answers every call. *)
Definition always {World : Type} (h : Handlers World) : Net World :=
  mkNet World
    (fun req w => let '(r, w1) := http h req w in (Some r, w1))
    (open_rb h).

(** A net on which only URLs that start with [http] get a response (200,
    body [{}]). *)
Definition schema_net : Net unit :=
  mkNet unit
    (fun req w => if String.prefix "http" (req_url req)
                  then (Some (mkResponse 200 [] [Byte.x7b; Byte.x7d]), w)
                  else (None, w))
    (fun _ _ => None).

(** The order in which [main] calls the session. *)
Definition main_calls (client : GPTResearcherClient) : list Request :=
  [health_request client; list_request client; create_request client;
   list_request client].

(** A decoder for a server that never answers in JSON. *)
Definition no_json (body : bytes) : option JSON := None.

(** The calls that only read: [get_reports], [get_report_by_id],
    [get_report_chat] and [list_files]. *)
Definition read_only (c : Call) : bool :=
  match c with
  | CallGetReports _ | CallGetReportById _ | CallGetReportChat _
  | CallListFiles _ => true
  | _ => false
  end.

End Demo.

(** * Properties of the client and the launcher *)

Module ClientFacts.
Import Client.

Section Basename.

Lemma rfind_lower c p : (-1 <= rfind c p)%Z.
Proof.
  induction p as [|a s IH]; simpl; [lia|].
  destruct (0 <=? rfind c s)%Z eqn:E; [apply Z.leb_le in E; lia|].
  destruct (Ascii.eqb a c); lia.
Qed.

Lemma rfind_absent c p : rfind c p = (-1)%Z ↔ occurs c p = false.
Proof.
  induction p as [|a s IH]; simpl; [done|].
  pose proof (rfind_lower c s) as L.
  destruct (0 <=? rfind c s)%Z eqn:E.
  - apply Z.leb_le in E. split; [lia|].
    intros H. apply orb_false_iff in H as [_ H]. apply IH in H. lia.
  - apply Z.leb_gt in E. assert (rfind c s = (-1)%Z) as R by lia.
    apply IH in R. rewrite R, orb_false_r.
    destruct (Ascii.eqb a c); split; (done || lia).
Qed.

Lemma slice_split i p : p = slice_to i p +:+ slice_from i p.
Proof.
  revert p. induction i as [|j IH]; intros [|a s]; simpl; try done.
  change (String a s = String a (slice_to j s +:+ slice_from j s)).
  f_equal. apply IH.
Qed.

(** After the last separator there is no separator. *)
Lemma slice_from_rfind c p :
  occurs c (slice_from (Z.to_nat (rfind c p + 1)) p) = false.
Proof.
  induction p as [|a s IH]; [done|].
  pose proof (rfind_lower c s) as L. simpl rfind.
  destruct (0 <=? rfind c s)%Z eqn:E.
  - apply Z.leb_le in E.
    replace (Z.to_nat (rfind c s + 1 + 1)) with (S (Z.to_nat (rfind c s + 1)))
      by lia.
    exact IH.
  - apply Z.leb_gt in E. assert (rfind c s = (-1)%Z) as R by lia.
    destruct (Ascii.eqb a c) eqn:A; simpl.
    + by apply rfind_absent.
    + rewrite A. by apply rfind_absent.
Qed.

(** What is cut off is empty or ends in the separator. *)
Lemma slice_to_rfind c p :
  let d := slice_to (Z.to_nat (rfind c p + 1)) p in
  d = "" ∨ last_char d = Some c.
Proof.
  induction p as [|a s IH]; [by left|].
  pose proof (rfind_lower c s) as L. simpl rfind.
  destruct (0 <=? rfind c s)%Z eqn:E.
  - apply Z.leb_le in E.
    replace (Z.to_nat (rfind c s + 1 + 1)) with (S (Z.to_nat (rfind c s + 1)))
      by lia.
    right. simpl in IH |- *.
    destruct (Z.to_nat (rfind c s + 1)) as [|k] eqn:K; [lia|].
    destruct IH as [IH|IH].
    + destruct s; simpl in IH |- *; discriminate.
    + destruct (slice_to (S k) s) eqn:D; [discriminate|]. exact IH.
  - destruct (Ascii.eqb a c) eqn:A; simpl; [|by left].
    right. apply Ascii.eqb_eq in A. by subst.
Qed.

End Basename.

Example basename_nested : basename "/tmp/docs/notes.txt" = "notes.txt".
Proof. reflexivity. Qed.

Example basename_plain : basename "notes.txt" = "notes.txt".
Proof. reflexivity. Qed.

Example basename_trailing : basename "/tmp/docs/" = "".
Proof. reflexivity. Qed.

Example rfind_examples :
  rfind "/"%char "a/b/c" = 3%Z ∧ rfind "/"%char "abc" = (-1)%Z.
Proof. split; reflexivity. Qed.

Section Exchange.

Context {World : Type} (h : Handlers World).
Variable json_loads : bytes -> option JSON.

(** A method that sends one request and returns [response.json()]. *)
Lemma exec_send_json req w :
  exec h (Send req (response_json json_loads)) w
  = (decoded json_loads (fst (http h req w)), [req], snd (http h req w)).
Proof.
  simpl. destruct (http h req w) as [resp w1]. unfold response_json, decoded.
  simpl. by destruct (json_loads (content resp)).
Qed.

Lemma exec_upload self fp dp w :
  exec h (upload_file json_loads self fp dp) w
  = match open_rb h fp w with
    | Some f =>
        let req := mkRequest POST (base_url self +:+ "/upload/")
                     [("path", default "./my-docs" dp)] None []
                     [("file", (basename fp, f))] false in
        (decoded json_loads (fst (http h req w)), [req], snd (http h req w))
    | None => (Raised (FileNotFoundError fp), [], w)
    end.
Proof.
  unfold upload_file. cbn [exec]. destruct (open_rb h fp w) as [f|]; [|done].
  apply exec_send_json.
Qed.

End Exchange.

(** C6: whatever the arguments, [create_report] sends one request, a POST
    to [/report/] under the base URL, whose JSON body is a dictionary with
    exactly the eight keys task, report_type, report_source, tone, headers,
    repo_name, branch_name and generate_in_background. *)
Theorem create_report_posts_eight_fields :
  ∀ (World : Type) (h : Handlers World) (json_loads : bytes -> option JSON)
    (self : GPTResearcherClient) (task : string)
    (report_type report_source tone : option string) (headers : option JSON)
    (repo_name branch_name : option string) (background : option bool)
    (w : World),
  ∃ body,
    sent h (create_report json_loads self task report_type report_source tone
              headers repo_name branch_name background) w
    = [mkRequest POST (base_url self +:+ "/report/") [] (Some (JDict body))
         [("Content-Type", "application/json")] [] false]
    ∧ map fst body
      = ["task"; "report_type"; "report_source"; "tone"; "headers";
         "repo_name"; "branch_name"; "generate_in_background"].
Proof.
  intros. eexists. split.
  - unfold sent, create_report. rewrite exec_send_json. reflexivity.
  - reflexivity.
Qed.

(** C7: with no [--host]/[--port] on the command line the launcher hands
    uvicorn host 0.0.0.0 and port 8000; with [GPTR_API_URL] unset, [main]
    builds a client for http://localhost:11250, which is also the
    constructor's own default; the port in that URL is 11250, not the
    launcher's. *)
Theorem default_bind_and_target_differ :
  ∀ environ : gmap string string,
  environ !! "GPTR_API_URL" = None →
  let srv := Launcher.run_server (Launcher.mkCommandLine None None) in
  Launcher.run_host srv = "0.0.0.0"
  ∧ Launcher.run_port srv = 8000%Z
  ∧ base_url (main_client environ) = "http://localhost:11250"
  ∧ base_url (init None) = "http://localhost:11250"
  ∧ Launcher.url_port (base_url (main_client environ)) = Some 11250%Z
  ∧ Launcher.url_port (base_url (main_client environ))
    ≠ Some (Launcher.run_port srv).
Proof.
  intros environ E. unfold main_client, getenv. rewrite E. simpl.
  repeat split; try reflexivity. vm_compute. discriminate.
Qed.

Lemma default_bind_and_target_differ_witness :
  (∅ : gmap string string) !! "GPTR_API_URL" = None
  ∧ Launcher.run_port (Launcher.run_server (Launcher.mkCommandLine None None))
    = 8000%Z
  ∧ base_url (main_client ∅) = "http://localhost:11250".
Proof.
  assert ((∅ : gmap string string) !! "GPTR_API_URL" = None) as E
    by reflexivity.
  split; [exact E|].
  pose proof (default_bind_and_target_differ ∅ E) as (_ & P & U & _).
  split; [exact P | exact U].
Defined.

(** C8: [get_report_docx] sends one streaming GET to [/report/{id}] and
    returns the body bytes exactly when the status is 200; for every other
    status it returns [None]. *)
Theorem get_report_docx_by_status :
  ∀ (World : Type) (h : Handlers World) (self : GPTResearcherClient)
    (research_id : string) (w : World),
  let req := mkRequest GET (base_url self +:+ "/report/" +:+ research_id)
               [] None [] [] true in
  let response := fst (http h req w) in
  let r := result h (get_report_docx self research_id) w in
  sent h (get_report_docx self research_id) w = [req]
  ∧ (r = Returned (Some (content response)) ↔ status_code response = 200%Z)
  ∧ (r = Returned None ↔ status_code response ≠ 200%Z).
Proof.
  intros World h self rid w req response r. subst r response.
  unfold sent, result, get_report_docx. fold req. cbn [exec].
  destruct (http h req w) as [resp w1]. cbn [fst snd].
  destruct (Z.eqb_spec (status_code resp) 200) as [E|E]; cbn [exec fst snd].
  - split; [done|]. split; split; (done || intros; congruence).
  - split; [done|]. split; split; (done || intros; congruence).
Qed.

(** C9: every method other than [health_check] and [get_report_docx] hands
    back [response.json()] of the one response it receives and never looks at
    the status code: the result is the decoded body (or the decoding error of
    a body that is not JSON), and it is the same whatever status the server
    reports, so a 404 or 403 arrives as its parsed error body.  The only run
    that sends nothing is [upload_file] on a file that cannot be opened. *)
Theorem methods_return_json_whatever_status :
  ∀ (World : Type) (h : Handlers World) (json_loads : bytes -> option JSON)
    (self : GPTResearcherClient) (call : Call) (w : World),
  match sent h (invoke json_loads self call) w with
  | [req] =>
      result h (invoke json_loads self call) w
      = decoded json_loads (fst (http h req w))
  | [] =>
      ∃ fp dp, call = CallUploadFile fp dp ∧ open_rb h fp w = None
               ∧ result h (invoke json_loads self call) w
                 = Raised (FileNotFoundError fp)
  | _ => False
  end
  ∧ ∀ f : Request -> World -> Z,
      result (restatus f h) (invoke json_loads self call) w
      = result h (invoke json_loads self call) w.
Proof.
  intros World h jl self call w.
  assert (∀ f req, decoded jl (fst (http (restatus f h) req w))
                   = decoded jl (fst (http h req w))) as RS.
  { intros f req. unfold restatus, decoded. cbn [http].
    by destruct (http h req w). }
  destruct call; unfold sent, result; cbn [invoke];
    try (unfold get_reports, get_report_by_id, create_report, update_report,
           delete_report, get_report_chat, add_chat_message, chat, list_files,
           delete_file;
         split; [by rewrite exec_send_json
                |intros f; by rewrite !exec_send_json; cbn [fst]]).
  rewrite exec_upload. split.
  - destruct (open_rb h file_path w) as [b|] eqn:O; cbn [fst snd]; [done|].
    by exists file_path, doc_path.
  - intros f. rewrite exec_upload.
    change (open_rb (restatus f h) file_path w) with (open_rb h file_path w).
    destruct (open_rb h file_path w); cbn [fst snd]; [apply RS|done].
Qed.

(** C10: when the file can be read, [upload_file] sends it under the name
    [basename file_path]: the path is the dropped directory part followed by
    that name, the name contains no separator, and the dropped part is empty
    or ends in one.  [upload_file], [list_files] and [delete_file] send
    [path=./my-docs] when [doc_path] is left out, and the given path
    otherwise. *)
Theorem upload_name_and_default_path :
  ∀ (World : Type) (h : Handlers World) (json_loads : bytes -> option JSON)
    (self : GPTResearcherClient) (file_path filename : string)
    (doc_path : option string) (f : bytes) (w : World),
  open_rb h file_path w = Some f →
  (∃ req, sent h (upload_file json_loads self file_path doc_path) w = [req]
          ∧ req_files req = [("file", (basename file_path, f))]
          ∧ req_params req = [("path", default "./my-docs" doc_path)])
  ∧ file_path = dirpart file_path +:+ basename file_path
  ∧ occurs "/"%char (basename file_path) = false
  ∧ (dirpart file_path = "" ∨ last_char (dirpart file_path) = Some "/"%char)
  ∧ map req_params (sent h (upload_file json_loads self file_path None) w)
    = [[("path", "./my-docs")]]
  ∧ map req_params (sent h (list_files json_loads self None) w)
    = [[("path", "./my-docs")]]
  ∧ map req_params (sent h (delete_file json_loads self filename None) w)
    = [[("path", "./my-docs")]]
  ∧ map req_params (sent h (list_files json_loads self doc_path) w)
    = [[("path", default "./my-docs" doc_path)]]
  ∧ map req_params (sent h (delete_file json_loads self filename doc_path) w)
    = [[("path", default "./my-docs" doc_path)]].
Proof.
  intros World h jl self fp fn dp f w O.
  unfold sent, list_files, delete_file.
  rewrite !exec_upload, !exec_send_json, O. cbn [fst snd map req_params].
  split; [by eexists|].
  split; [apply slice_split|].
  split; [apply slice_from_rfind|].
  split; [apply slice_to_rfind|].
  done.
Qed.

Example not_found_arrives_as_body :
  result one_file (get_report_by_id toy_loads (init None) "nope") tt
  = Returned (JDict [])
  ∧ result one_file (delete_report toy_loads (init None) "nope") tt
    = Returned (JDict [])
  ∧ result one_file (get_report_docx (init None) "nope") tt = Returned None
  ∧ sent one_file (get_reports toy_loads (init None) (Some "a,b")) tt
    = [plain GET "http://localhost:11250/api/reports?report_ids=a,b"]
  ∧ sent one_file (get_reports toy_loads (init None) (Some "")) tt
    = [plain GET "http://localhost:11250/api/reports"].
Proof. repeat split; reflexivity. Qed.

Lemma upload_name_and_default_path_witness :
  open_rb one_file "/srv/in/paper.pdf" tt = Some [Byte.x25; Byte.x50]
  ∧ map req_files
        (sent one_file
           (upload_file (fun _ => None) (init None) "/srv/in/paper.pdf" None)
           tt)
    = [[("file", ("paper.pdf", [Byte.x25; Byte.x50]))]].
Proof.
  assert (open_rb one_file "/srv/in/paper.pdf" tt = Some [Byte.x25; Byte.x50])
    as O by reflexivity.
  split; [exact O|].
  pose proof (upload_name_and_default_path unit one_file (fun _ => None)
                (init None) "/srv/in/paper.pdf" "paper.pdf" None
                [Byte.x25; Byte.x50] tt O) as ((req & S & F & _) & _).
  rewrite S. cbn [map]. rewrite F. reflexivity.
Defined.

End ClientFacts.

(** * Properties of the orchestration core *)

Module CoreFacts.
Import Core.

Local Open Scope nat_scope.
Local Open Scope list_scope.

(** ** The task list *)

Lemma task_phase_In i ph ts : task_phase i ts = Some ph → In (i, ph) ts.
Proof.
  unfold task_phase. destruct (find _ ts) as [[j q]|] eqn:F; [|done].
  intros [= <-]. apply find_some in F as [HIn E]. simpl in E.
  apply Nat.eqb_eq in E. by subst.
Qed.

Lemma In_task_ids (i : nat) (ph : Phase) (ts : list (nat * Phase)) :
  In (i, ph) ts → In i (map fst ts).
Proof. intros H. apply in_map_iff. by exists (i, ph). Qed.

Lemma started_ids (i : nat) (ts : list (nat * Phase)) :
  map fst (map (fun t : nat * Phase => if fst t =? i then (i, Started) else t) ts)
  = map fst ts.
Proof.
  rewrite map_map. apply map_ext. intros [j q]. simpl.
  destruct (Nat.eqb_spec j i); simpl; congruence.
Qed.

Lemma In_started (i j : nat) (ph : Phase) (ts : list (nat * Phase)) :
  In (j, ph) (map (fun t : nat * Phase => if fst t =? i then (i, Started) else t) ts)
  → (j = i ∧ ph = Started ∧ In i (map fst ts)) ∨ (j ≠ i ∧ In (j, ph) ts).
Proof.
  intros H. apply in_map_iff in H as ([k q] & E & HIn). simpl in E.
  destruct (Nat.eqb_spec k i) as [->|N].
  - injection E as <- <-. left. repeat split. by eapply In_task_ids.
  - injection E as <- <-. by right.
Qed.

Lemma In_finished i j ph (ts : list (nat * Phase)) :
  In (j, ph) (filter (fun t => fst t ≠ i) ts) ↔ j ≠ i ∧ In (j, ph) ts.
Proof. rewrite <- !list_elem_of_In, list_elem_of_filter. done. Qed.

Lemma NoDup_finished i (ts : list (nat * Phase)) :
  NoDup (map fst ts) → NoDup (map fst (filter (fun t => fst t ≠ i) ts)).
Proof.
  induction ts as [|[j q] ts IH]; [done|]. simpl map at 1.
  intros H. apply NoDup_cons in H as [N H].
  rewrite filter_cons. destruct (decide (fst (j, q) ≠ i)); [|by apply IH].
  simpl. apply NoDup_cons. split; [|by apply IH].
  rewrite list_elem_of_In in *. intros HIn. apply N.
  apply in_map_iff in HIn as ([k p] & E & HIn). simpl in E. subst k.
  apply In_finished in HIn as [_ HIn]. by eapply In_task_ids.
Qed.

(** ** Transcript numbering *)

Lemma max_seq_run a n : foldr Nat.max 0 (seq a (S n)) = a + n.
Proof.
  revert a. induction n as [|n IH]; intros a; [simpl; lia|].
  change (seq a (S (S n))) with (a :: seq (S a) (S n)).
  cbn [foldr]. rewrite IH. lia.
Qed.

Lemma max_sequence_map ts : max_sequence ts = foldr Nat.max 0 (map sequence ts).
Proof. induction ts as [|t ts IH]; simpl; [done|]. by rewrite <- IH. Qed.

Lemma gapless_max ts : gapless ts → max_sequence ts = length ts.
Proof.
  unfold gapless. intros G. rewrite max_sequence_map, G.
  destruct (length ts) as [|n]; [done|]. rewrite max_seq_run. lia.
Qed.

Lemma gapless_snoc ts rl text :
  gapless ts → gapless (ts ++ [mkChatTurn rl text (S (max_sequence ts))]).
Proof.
  intros G. rewrite (gapless_max _ G). unfold gapless in *.
  rewrite map_app, length_app, G. simpl.
  rewrite Nat.add_1_r, seq_S. done.
Qed.

Lemma gapless_transcript s i : inv s → gapless (transcript i s).
Proof.
  intros I. unfold transcript. destruct (chats s !! i) as [ts|] eqn:E; simpl.
  - by eapply inv_chats.
  - reflexivity.
Qed.

Lemma gapless_steps ts i :
  gapless ts → ∀ t, ts !! i = Some t → sequence t = S i.
Proof.
  unfold gapless. intros G t E.
  assert (map sequence ts !! i = Some (sequence t)) as M.
  { change (map sequence ts) with (sequence <$> ts).
    by rewrite list_lookup_fmap, E. }
  rewrite G in M. apply lookup_seq in M. lia.
Qed.

(** ** What [update] can change *)

Lemma apply_fields_status fields r :
  status (fold_left apply_field fields r) = status r.
Proof.
  revert r. induction fields as [|kv fields IH]; intros r; [done|].
  simpl. rewrite IH. unfold apply_field. by destruct (String.eqb _ _).
Qed.

Lemma apply_fields_error fields r :
  error (fold_left apply_field fields r) = error r.
Proof.
  revert r. induction fields as [|kv fields IH]; intros r; [done|].
  simpl. rewrite IH. unfold apply_field. by destruct (String.eqb _ _).
Qed.

Lemma apply_fields_content fields r :
  existsb (fun kv => String.eqb (fst kv) "content") fields = false →
  content (fold_left apply_field fields r) = content r.
Proof.
  revert r. induction fields as [|kv fields IH]; intros r; [done|].
  simpl. intros H. apply orb_false_iff in H as [H1 H2].
  rewrite IH by done. unfold apply_field. by rewrite H1.
Qed.

(** ** The invariant holds at the start and after every operation *)

Lemma inv_init : inv init.
Proof.
  split; simpl; try done.
  - constructor.
Qed.

Lemma inv_submit cfg req s : inv s → inv (snd (submit cfg req s)).
Proof.
  intros I. unfold submit. destruct (valid cfg req); [|done].
  destruct I as [ND TL RL LA ST CH]. split; simpl.
  - unfold task_ids in *. simpl. rewrite map_app. simpl.
    apply NoDup_app. split; [done|]. split; [|apply NoDup_singleton].
    intros x Hx Hn. apply list_elem_of_singleton in Hn. subst x.
    apply list_elem_of_In, in_map_iff in Hx as ([j q] & E & HIn).
    simpl in E. subst j. apply TL in HIn. lia.
  - intros i ph H. apply in_app_iff in H as [H|[H|[]]].
    + apply TL in H. lia.
    + injection H as <- <-. lia.
  - intros i r H. apply lookup_insert_Some in H as [[<- _]|[_ H]]; [lia|].
    apply RL in H. lia.
  - intros i r H L. apply in_app_iff in H as [H|[H|[]]].
    + pose proof (TL _ _ H). rewrite lookup_insert_ne in L by lia. eauto.
    + injection H as <-. rewrite lookup_insert_eq in L. by injection L as <-.
  - intros i r H L. apply in_app_iff in H as [H|[H|[]]]; [|done].
    pose proof (TL _ _ H). rewrite lookup_insert_ne in L by lia. eauto.
  - done.
Qed.

Lemma inv_task_start i s : inv s → inv (task_start i s).
Proof.
  intros I. unfold task_start.
  destruct (task_phase i (tasks s)) as [[|]|] eqn:P; try done.
  destruct I as [ND TL RL LA ST CH]. split; simpl.
  - unfold task_ids in *. simpl. by rewrite started_ids.
  - intros j ph H. apply In_started in H as [(-> & _ & H)|[_ H]].
    + apply in_map_iff in H as ([k q] & E & H). simpl in E. subst k. eauto.
    + eauto.
  - intros j r H. destruct (decide (j = i)) as [->|N].
    + rewrite lookup_alter_eq in H. destruct (reports s !! i) eqn:E; [|done].
      eauto.
    + rewrite lookup_alter_ne in H by done. eauto.
  - intros j r H L. apply In_started in H as [(_ & [=] & _)|[N H]].
    rewrite lookup_alter_ne in L by done. eauto.
  - intros j r H L. apply In_started in H as [(-> & _ & _)|[N H]].
    + rewrite lookup_alter_eq in L. destruct (reports s !! i); [|done].
      by injection L as <-.
    + rewrite lookup_alter_ne in L by done. eauto.
  - done.
Qed.

Lemma inv_task_finish i outcome s : inv s → inv (task_finish i outcome s).
Proof.
  intros I. unfold task_finish.
  destruct (task_phase i (tasks s)) as [[|]|] eqn:P; try done.
  destruct I as [ND TL RL LA ST CH]. split; simpl.
  - unfold task_ids in *. simpl. by apply NoDup_finished.
  - intros j ph H. apply In_finished in H as [_ H]. eauto.
  - intros j r H. destruct (decide (j = i)) as [->|N].
    + rewrite lookup_alter_eq in H. destruct (reports s !! i) eqn:E; [|done].
      eauto.
    + rewrite lookup_alter_ne in H by done. eauto.
  - intros j r H L. apply In_finished in H as [N H].
    rewrite lookup_alter_ne in L by done. eauto.
  - intros j r H L. apply In_finished in H as [N H].
    rewrite lookup_alter_ne in L by done. eauto.
  - done.
Qed.

Lemma inv_update i fields s : inv s → inv (snd (update i fields s)).
Proof.
  intros I. unfold update. destruct (reports s !! i) as [r0|] eqn:E; [|done].
  destruct (forbidden r0 fields); [done|].
  destruct I as [ND TL RL LA ST CH]. split; simpl; try done.
  - intros j r H. apply lookup_insert_Some in H as [[<- _]|[_ H]]; eauto.
  - intros j r H L. apply lookup_insert_Some in L as [[<- <-]|[_ L]]; [|eauto].
    simpl. rewrite apply_fields_status. eauto.
  - intros j r H L. apply lookup_insert_Some in L as [[<- <-]|[_ L]]; [|eauto].
    simpl. rewrite apply_fields_status. eauto.
Qed.

Lemma inv_delete i s : inv s → inv (snd (delete i s)).
Proof.
  intros I. unfold delete. destruct (reports s !! i) as [r0|] eqn:E; [|done].
  destruct I as [ND TL RL LA ST CH]. split; simpl; try done.
  - intros j r H. apply lookup_delete_Some in H as [_ H]. eauto.
  - intros j r H L. apply lookup_delete_Some in L as [_ L]. eauto.
  - intros j r H L. apply lookup_delete_Some in L as [_ L]. eauto.
  - intros j ts H. apply lookup_delete_Some in H as [_ H]. eauto.
Qed.

Lemma inv_append i rl text s : inv s → inv (snd (append i rl text s)).
Proof.
  intros I. unfold append. destruct (reports s !! i) as [r0|] eqn:E; [|done].
  pose proof (gapless_transcript s i I) as G.
  destruct I as [ND TL RL LA ST CH].
  destruct (status r0); try done; split; simpl; try done.
  all: intros j ts H; apply lookup_insert_Some in H as [[_ <-]|[_ H]];
    [by apply gapless_snoc | eauto].
Qed.

Lemma inv_ask cfg i m s : inv s → inv (snd (ask_report cfg i m s)).
Proof.
  intros I. unfold ask_report, ask.
  destruct (reports s !! i) as [r0|] eqn:E; [|done].
  pose proof (gapless_transcript s i I) as G.
  destruct I as [ND TL RL LA ST CH].
  destruct (status r0); try done;
    destruct (chat_fn cfg _ _ m) as [answer|]; try done; split; simpl; try done.
  all: intros j ts H; apply lookup_insert_Some in H as [[_ <-]|[_ H]];
    [|eauto].
  all: change [mkChatTurn User m (S (max_sequence (transcript i s)));
               mkChatTurn Assistant answer
                 (S (max_sequence
                       (transcript i s
                        ++ [mkChatTurn User m
                              (S (max_sequence (transcript i s)))])))]
         with ([mkChatTurn User m (S (max_sequence (transcript i s)))]
               ++ [mkChatTurn Assistant answer
                     (S (max_sequence
                           (transcript i s
                            ++ [mkChatTurn User m
                                  (S (max_sequence (transcript i s)))])))]).
  all: rewrite app_assoc; by do 2 apply gapless_snoc.
Qed.

Lemma inv_apply cfg op s : inv s → inv (apply cfg op s).
Proof.
  destruct op; simpl; auto using inv_submit, inv_task_start, inv_task_finish,
    inv_update, inv_delete, inv_append, inv_ask.
Qed.

Lemma run_snoc cfg ops op s :
  run cfg (ops ++ [op]) s = apply cfg op (run cfg ops s).
Proof. unfold run. by rewrite fold_left_app. Qed.

Lemma inv_run_from cfg ops s : inv s → inv (run cfg ops s).
Proof.
  revert s. induction ops as [|op ops IH]; intros s I; [done|].
  simpl. apply IH. by apply inv_apply.
Qed.

Lemma inv_run cfg ops : inv (run cfg ops init).
Proof. apply inv_run_from, inv_init. Qed.

(** ** Status changes *)

Lemma status_step_refl o : status_step o o.
Proof. destruct o; simpl; auto. Qed.

Lemma step_status cfg op s i :
  inv s → status_step (reports s !! i) (reports (apply cfg op s) !! i).
Proof.
  intros I. destruct op as [req|j|j outcome|j|j fields|j|j rl text|j m|j];
    simpl; try apply status_step_refl.
  - unfold submit. destruct (valid cfg req); [|apply status_step_refl]. simpl.
    destruct (decide (next_id s = i)) as [<-|N].
    + rewrite lookup_insert_eq. destruct (reports s !! next_id s) eqn:E.
      * apply (inv_report_lt _ I) in E. lia.
      * done.
    + rewrite lookup_insert_ne by done. apply status_step_refl.
  - unfold task_start.
    destruct (task_phase j (tasks s)) as [[|]|] eqn:P;
      try apply status_step_refl. simpl.
    destruct (decide (j = i)) as [->|N].
    + rewrite lookup_alter_eq. destruct (reports s !! i) as [r|] eqn:E; [|done].
      simpl. right. apply task_phase_In in P.
      by rewrite (inv_launched _ I _ _ P E).
    + rewrite lookup_alter_ne by done. apply status_step_refl.
  - unfold task_finish.
    destruct (task_phase j (tasks s)) as [[|]|] eqn:P;
      try apply status_step_refl. simpl.
    destruct (decide (j = i)) as [->|N].
    + rewrite lookup_alter_eq. destruct (reports s !! i) as [r|] eqn:E; [|done].
      simpl. right. apply task_phase_In in P.
      rewrite (inv_started _ I _ _ P E). by destruct outcome.
    + rewrite lookup_alter_ne by done. apply status_step_refl.
  - unfold update. destruct (reports s !! j) as [r0|] eqn:E;
      [|apply status_step_refl].
    destruct (forbidden r0 fields); [apply status_step_refl|]. simpl.
    destruct (decide (j = i)) as [->|N].
    + rewrite lookup_insert_eq, E. simpl. left. apply apply_fields_status.
    + rewrite lookup_insert_ne by done. apply status_step_refl.
  - unfold delete. destruct (reports s !! j) as [r0|] eqn:E;
      [|apply status_step_refl]. simpl.
    destruct (decide (j = i)) as [->|N].
    + rewrite lookup_delete_eq. by destruct (reports s !! i).
    + rewrite lookup_delete_ne by done. apply status_step_refl.
  - unfold append. destruct (reports s !! j) as [r0|];
      [|apply status_step_refl].
    destruct (status r0); apply status_step_refl.
  - unfold ask_report. destruct (reports s !! j) as [r0|];
      [|apply status_step_refl].
    destruct (status r0); try apply status_step_refl.
    all: destruct (ask cfg _ _ m) as [[a ts]|]; apply status_step_refl.
Qed.

(** ** Identifiers are never handed out twice *)

Lemma next_id_mono cfg op s : next_id s ≤ next_id (apply cfg op s).
Proof.
  destruct op as [req|j|j outcome|j|j fields|j|j rl text|j m|j]; simpl;
    try done.
  - unfold submit. destruct (valid cfg req); simpl; lia.
  - unfold task_start. by destruct (task_phase j (tasks s)) as [[|]|].
  - unfold task_finish. by destruct (task_phase j (tasks s)) as [[|]|].
  - unfold update. destruct (reports s !! j) as [r0|]; [|done].
    by destruct (forbidden r0 fields).
  - unfold delete. by destruct (reports s !! j).
  - unfold append. destruct (reports s !! j) as [r0|]; [|done].
    by destruct (status r0).
  - unfold ask_report. destruct (reports s !! j) as [r0|]; [|done].
    destruct (status r0); try done.
    all: by destruct (ask cfg _ _ m) as [[a ts]|].
Qed.

Lemma gone_stays_gone_step cfg op s i :
  inv s → i < next_id s → reports s !! i = None →
  reports (apply cfg op s) !! i = None.
Proof.
  intros I L E. pose proof (step_status cfg op s i I) as S.
  rewrite E in S. destruct (reports (apply cfg op s) !! i) as [r'|] eqn:E';
    [|done].
  exfalso. simpl in S.
  destruct op as [req|j|j outcome|j|j fields|j|j rl text|j m|j]; simpl in E';
    try congruence.
  - unfold submit in E'. destruct (valid cfg req); [|simpl in E'; congruence]. simpl in E'.
    rewrite lookup_insert_ne in E' by lia. congruence.
  - unfold task_start in E'.
    destruct (task_phase j (tasks s)) as [[|]|]; try (simpl in E'; congruence). simpl in E'.
    destruct (decide (j = i)) as [->|N].
    + rewrite lookup_alter_eq, E in E'. done.
    + rewrite lookup_alter_ne in E' by done. congruence.
  - unfold task_finish in E'.
    destruct (task_phase j (tasks s)) as [[|]|]; try (simpl in E'; congruence). simpl in E'.
    destruct (decide (j = i)) as [->|N].
    + rewrite lookup_alter_eq, E in E'. done.
    + rewrite lookup_alter_ne in E' by done. congruence.
  - unfold update in E'. destruct (reports s !! j) as [r0|] eqn:Ej;
      [|simpl in E'; congruence].
    destruct (forbidden r0 fields); [simpl in E'; congruence|]. simpl in E'.
    assert (j ≠ i) by congruence.
    rewrite lookup_insert_ne in E' by done. congruence.
  - unfold delete in E'. destruct (reports s !! j); [|simpl in E'; congruence].
    simpl in E'. apply lookup_delete_Some in E' as [_ E']. congruence.
  - unfold append in E'. destruct (reports s !! j) as [r0|]; [|simpl in E'; congruence].
    destruct (status r0); simpl in E'; congruence.
  - unfold ask_report in E'. destruct (reports s !! j) as [r0|]; [|simpl in E'; congruence].
    destruct (status r0); try (simpl in E'; congruence).
    all: destruct (ask cfg _ _ m) as [[a ts]|]; simpl in E'; congruence.
Qed.

Lemma gone_stays_gone cfg ops s i :
  inv s → i < next_id s → reports s !! i = None →
  reports (run cfg ops s) !! i = None.
Proof.
  revert s. induction ops as [|op ops IH]; intros s I L E; [done|].
  simpl. apply IH.
  - by apply inv_apply.
  - pose proof (next_id_mono cfg op s). lia.
  - by apply gone_stays_gone_step.
Qed.

Lemma rank_monotone cfg ops s i r r' :
  inv s → reports s !! i = Some r → reports (run cfg ops s) !! i = Some r' →
  rank (status r) ≤ rank (status r')
  ∧ (rank (status r) = rank (status r') → status r' = status r).
Proof.
  revert s r. induction ops as [|op ops IH]; intros s r I E E'.
  - simpl in E'. assert (r' = r) as -> by congruence. done.
  - simpl in E'. pose proof (step_status cfg op s i I) as S. rewrite E in S.
    destruct (reports (apply cfg op s) !! i) as [r1|] eqn:E1.
    + destruct (IH _ _ (inv_apply cfg op s I) E1 E') as [Le Eq].
      simpl in S. destruct S as [S|S].
      * rewrite S in *. done.
      * destruct (status r), (status r1); try done; simpl in *;
          destruct (status r'); simpl in *; try lia; split; try lia.
    + rewrite (gone_stays_gone cfg ops (apply cfg op s) i) in E'; try done.
      * by apply inv_apply.
      * pose proof (inv_report_lt _ I _ _ E).
        pose proof (next_id_mono cfg op s). lia.
Qed.

(** ** The lifecycle *)

(** C1: in every reachable state and for every identifier, one operation
    leaves the stored report's status alone, moves it one step along
    pending -> running -> completed | failed, creates the report as pending,
    or removes it; and over any further history the status never moves back:
    its position in the chain does not decrease, and a report found at the
    same position later has the same status. *)
Theorem status_follows_chain :
  ∀ (cfg : Config) (ops : list Op) (i : nat),
  let s := run cfg ops init in
  (∀ op, status_step (reports s !! i) (reports (apply cfg op s) !! i))
  ∧ (∀ ops' r r',
       reports s !! i = Some r →
       reports (run cfg ops' s) !! i = Some r' →
       rank (status r) ≤ rank (status r')
       ∧ (rank (status r) = rank (status r') → status r' = status r)).
Proof.
  intros cfg ops i s. pose proof (inv_run cfg ops) as I. split.
  - intros op. by apply step_status.
  - intros ops' r r'. by apply rank_monotone.
Qed.

Lemma status_follows_chain_witness :
  status_step
    (reports (run demo_config [OpSubmit demo_request; OpTaskStart 0] init) !! 0)
    (reports (run demo_config
                [OpSubmit demo_request; OpTaskStart 0;
                 OpTaskFinish 0 (inl "text"%string)] init) !! 0).
Proof.
  exact (proj1 (status_follows_chain demo_config
                  [OpSubmit demo_request; OpTaskStart 0] 0)
               (OpTaskFinish 0 (inl "text"%string))).
Defined.

Lemma filter_none (i : nat) (ts : list (nat * Phase)) :
  (∀ q, ¬ In (i, q) ts) → filter (fun t => fst t = i) ts = [].
Proof.
  induction ts as [|[j q] ts IH]; intros H; [done|].
  rewrite filter_cons. destruct (decide (fst (j, q) = i)) as [E|_].
  - simpl in E. subst j. destruct (H q). by left.
  - apply IH. intros q' HIn. apply (H q'). by right.
Qed.

Lemma next_id_run_mono cfg ops s : next_id s ≤ next_id (run cfg ops s).
Proof.
  revert s. induction ops as [|op ops IH]; intros s; [done|].
  simpl. pose proof (next_id_mono cfg op s). pose proof (IH (apply cfg op s)).
  lia.
Qed.

Lemma submit_returns_next cfg req s i :
  fst (submit cfg req s) = Ok i →
  i = next_id s ∧ next_id (snd (submit cfg req s)) = S i.
Proof.
  unfold submit. destruct (valid cfg req); [|done]. simpl.
  by intros [= <-].
Qed.

(** C2: in every reachable state two entries of the list of tasks in
    flight that are bound to the same identifier are one and the same entry.
    An identifier that [submit] returns was, until then, bound to no task in
    flight and to no stored report; with the submission it names the stored
    pending report of that request and exactly one launched task; and after
    any further history every later [submit] returns a different
    identifier. *)
Theorem one_task_per_identifier :
  ∀ (cfg : Config) (ops : list Op),
  let s := run cfg ops init in
  (∀ a b i pa pb,
     tasks s !! a = Some (i, pa) → tasks s !! b = Some (i, pb) → a = b)
  ∧ (∀ req i, fst (submit cfg req s) = Ok i →
       let s' := snd (submit cfg req s) in
       ¬ In i (task_ids s) ∧ reports s !! i = None
       ∧ (∃ r, reports s' !! i = Some r ∧ id r = i ∧ status r = Pending
               ∧ task r = sr_task req)
       ∧ In (i, Launched) (tasks s')
       ∧ NoDup (task_ids s')
       ∧ length (filter (fun t => fst t = i) (tasks s')) = 1
       ∧ (∀ ops' req' j,
            fst (submit cfg req' (run cfg ops' s')) = Ok j → j ≠ i)).
Proof.
  intros cfg ops s. pose proof (inv_run cfg ops) as I. fold s in I. split.
  - intros a b i pa pb Ha Hb.
    pose proof (inv_nodup _ I) as ND. unfold task_ids in ND.
    apply (proj1 (NoDup_alt _) ND a b i).
    + change (map fst (tasks s)) with (fst <$> tasks s).
      by rewrite list_lookup_fmap, Ha.
    + change (map fst (tasks s)) with (fst <$> tasks s).
      by rewrite list_lookup_fmap, Hb.
  - intros req i H s'. pose proof (inv_submit cfg req s I) as I'. fold s' in I'.
    destruct (submit_returns_next cfg req s i H) as [Ei En]. fold s' in En.
    assert (¬ In i (task_ids s)) as Fresh.
    { intros HIn. apply in_map_iff in HIn as ([j q] & E & HIn).
      simpl in E. subst j. apply (inv_task_lt _ I) in HIn. lia. }
    assert (tasks s' = tasks s ++ [(i, Launched)]
            ∧ ∃ r, reports s' !! i = Some r ∧ id r = i ∧ status r = Pending
                   ∧ task r = sr_task req) as [Et Stored].
    { subst s'. unfold submit in *. destruct (valid cfg req); [|done].
      simpl in *. subst i. split; [done|]. eexists. rewrite lookup_insert_eq.
      by repeat split. }
    split; [exact Fresh|]. split; [|split; [exact Stored|split; [|split; [|split]]]].
    + destruct (reports s !! i) eqn:E; [|done].
      apply (inv_report_lt _ I) in E. lia.
    + rewrite Et. apply in_app_iff. right. by left.
    + exact (inv_nodup _ I').
    + rewrite Et, filter_app.
      assert (filter (fun t : nat * Phase => fst t = i) (tasks s) = []) as ->.
      { apply filter_none. intros q HIn. apply Fresh.
        by apply In_task_ids with q. }
      rewrite filter_cons_True by done. done.
    + intros ops' req' j H'.
      destruct (submit_returns_next cfg req' _ j H') as [Ej _].
      pose proof (next_id_run_mono cfg ops' s'). lia.
Qed.

Lemma one_task_per_identifier_witness :
  fst (submit demo_config demo_request
         (run demo_config [OpSubmit demo_request; OpTaskStart 0] init)) = Ok 1
  ∧ ¬ In 1 (task_ids (run demo_config [OpSubmit demo_request; OpTaskStart 0]
                        init))
  ∧ In (1, Launched)
       (tasks (snd (submit demo_config demo_request
                      (run demo_config [OpSubmit demo_request; OpTaskStart 0]
                         init)))).
Proof.
  assert (fst (submit demo_config demo_request
                 (run demo_config [OpSubmit demo_request; OpTaskStart 0] init))
          = Ok 1) as E by reflexivity.
  split; [exact E|].
  pose proof (proj2 (one_task_per_identifier demo_config
                       [OpSubmit demo_request; OpTaskStart 0])
                    demo_request 1 E) as (F & _ & _ & L & _).
  split; [exact F | exact L].
Defined.

Example two_submissions_two_identifiers :
  fst (submit demo_config demo_request init) = Ok 0
  ∧ fst (submit demo_config demo_request
           (snd (submit demo_config demo_request init))) = Ok 1
  ∧ task_ids (run demo_config [OpSubmit demo_request; OpSubmit demo_request]
                init) = [0; 1].
Proof. repeat split; reflexivity. Qed.

(** ** Content and error *)

Lemma report_settled_ok r : report_settled r = true → report_ok r = true.
Proof.
  unfold report_settled, report_ok.
  destruct (status r), (bool_decide (is_Some (content r))),
    (bool_decide (is_Some (error r))); done.
Qed.

Lemma report_settled_same r r' :
  status r' = status r →
  bool_decide (is_Some (content r')) = bool_decide (is_Some (content r)) →
  error r' = error r →
  report_settled r' = report_settled r.
Proof. unfold report_settled. by intros -> -> ->. Qed.

Lemma report_settled_fields r :
  report_settled r = true →
  match status r with
  | Pending | Running => content r = None ∧ error r = None
  | Completed => is_Some (content r) ∧ error r = None
  | Failed => content r = None ∧ is_Some (error r)
  end.
Proof.
  unfold report_settled.
  destruct (status r), (content r), (error r); simpl; try done;
    intros _; split; by eauto.
Qed.

Lemma apply_fields_content_kept fields r :
  is_Some (content r) → is_Some (content (fold_left apply_field fields r)).
Proof.
  revert r. induction fields as [|kv fields IH]; intros r H; [done|].
  simpl. apply IH. unfold apply_field.
  destruct (String.eqb _ _); simpl; [by eexists | done].
Qed.

(** One operation keeps every stored report settled: the task steps
    because a launched task finds its report pending and a started one
    running, [update] because it refuses content on a report that is not
    completed. *)
Lemma settled_step cfg op s :
  inv s → store_settled s → store_settled (apply cfg op s).
Proof.
  intros I OK i r.
  destruct op as [req|j|j outcome|j|j fields|j|j rl text|j m|j]; simpl;
    try apply OK.
  - unfold submit. destruct (valid cfg req); [|apply OK]. simpl.
    intros H. apply lookup_insert_Some in H as [[_ <-]|[_ H]]; [done|eauto].
  - unfold task_start.
    destruct (task_phase j (tasks s)) as [[|]|] eqn:P; try apply OK. simpl.
    destruct (decide (j = i)) as [->|N].
    + rewrite lookup_alter_eq. destruct (reports s !! i) as [r0|] eqn:E; [|done].
      intros [= <-]. apply task_phase_In in P.
      pose proof (inv_launched _ I _ _ P E) as St.
      pose proof (report_settled_fields r0 (OK _ _ E)) as F.
      rewrite St in F. destruct F as [C Er].
      unfold report_settled. simpl. by rewrite C, Er.
    + rewrite lookup_alter_ne by done. apply OK.
  - unfold task_finish.
    destruct (task_phase j (tasks s)) as [[|]|] eqn:P; try apply OK. simpl.
    destruct (decide (j = i)) as [->|N].
    + rewrite lookup_alter_eq. destruct (reports s !! i) as [r0|] eqn:E; [|done].
      intros [= <-]. apply task_phase_In in P.
      pose proof (inv_started _ I _ _ P E) as St.
      pose proof (report_settled_fields r0 (OK _ _ E)) as F.
      rewrite St in F. destruct F as [C Er].
      unfold report_settled. destruct outcome; simpl; by rewrite ?C, ?Er.
    + rewrite lookup_alter_ne by done. apply OK.
  - unfold update. destruct (reports s !! j) as [r0|] eqn:E; [|apply OK].
    destruct (forbidden r0 fields) eqn:Fb; [apply OK|]. simpl.
    intros H. apply lookup_insert_Some in H as [[_ <-]|[_ H]]; [|eauto].
    rewrite <- (OK _ _ E). apply report_settled_same; simpl.
    + apply apply_fields_status.
    + unfold forbidden in Fb. apply orb_false_iff in Fb as [_ Fb].
      destruct (has_content fields) eqn:Hc.
      * simpl in Fb. apply negb_false_iff in Fb. unfold completed in Fb.
        pose proof (report_settled_fields r0 (OK _ _ E)) as F.
        destruct (status r0); try done. destruct F as [C _].
        rewrite !bool_decide_eq_true_2; [done|done|].
        by apply apply_fields_content_kept.
      * by rewrite apply_fields_content.
    + apply apply_fields_error.
  - unfold delete. destruct (reports s !! j); [|apply OK]. simpl.
    intros H. apply lookup_delete_Some in H as [_ H]. eauto.
  - unfold append. destruct (reports s !! j) as [r0|]; [|apply OK].
    destruct (status r0); apply OK.
  - unfold ask_report. destruct (reports s !! j) as [r0|]; [|apply OK].
    destruct (status r0); try apply OK.
    all: destruct (ask cfg _ _ m) as [[a ts]|]; apply OK.
Qed.

Lemma settled_run cfg ops : store_settled (run cfg ops init).
Proof.
  induction ops as [|op ops IH] using rev_ind.
  - intros i r E. done.
  - rewrite run_snoc. apply settled_step; [apply inv_run | exact IH].
Qed.

(** C3: in every reachable state each stored report has neither content
    nor error while it is pending or running and exactly one of the two once
    it is completed or failed, and this still holds after any further
    operation: a submission, a task step, an update, a delete or a chat
    operation.  More precisely content is present exactly on completed
    reports and error exactly on failed ones. *)
Theorem content_error_invariant_preserved :
  ∀ (cfg : Config) (ops : list Op),
  let s := run cfg ops init in
  store_ok s
  ∧ (∀ op, store_ok (apply cfg op s))
  ∧ (∀ i r, reports s !! i = Some r →
       (is_Some (content r) ↔ status r = Completed)
       ∧ (is_Some (error r) ↔ status r = Failed)).
Proof.
  intros cfg ops s. pose proof (settled_run cfg ops) as OK. fold s in OK.
  split; [|split].
  - intros i r E. by apply report_settled_ok, (OK i).
  - intros op i r E. apply report_settled_ok.
    apply (settled_step cfg op s (inv_run cfg ops) OK i r E).
  - intros i r E. pose proof (report_settled_fields r (OK _ _ E)) as F.
    destruct (status r); destruct F as [C Er]; rewrite ?C, ?Er;
      repeat split; intros H; try done; try (by destruct H as [? [=]]).
Qed.

Lemma content_error_invariant_preserved_witness :
  store_ok (run demo_config
              [OpSubmit demo_request; OpTaskStart 0;
               OpTaskFinish 0 (inl "text"%string);
               OpUpdate 0 [("content", "edited")]%string] init)
  ∧ store_ok (apply demo_config (OpUpdate 0 [("content", "late")]%string)
                (run demo_config [OpSubmit demo_request; OpTaskStart 0] init)).
Proof.
  split.
  - exact (proj1 (content_error_invariant_preserved demo_config
                    [OpSubmit demo_request; OpTaskStart 0;
                     OpTaskFinish 0 (inl "text"%string);
                     OpUpdate 0 [("content", "edited")]%string])).
  - exact (proj1 (proj2 (content_error_invariant_preserved demo_config
                           [OpSubmit demo_request; OpTaskStart 0]))
                 (OpUpdate 0 [("content", "late")]%string)).
Defined.

Example update_content_needs_completed :
  fst (update 0 [("content", "draft")]%string
         (run demo_config [OpSubmit demo_request] init)) = Err Forbidden
  ∧ fst (update 0 [("content", "draft")]%string
           (run demo_config [OpSubmit demo_request; OpTaskStart 0;
                             OpTaskFinish 0 (inr "timeout"%string)] init))
    = Err Forbidden
  ∧ (content <$>
     reports
       (run demo_config
          [OpSubmit demo_request; OpTaskStart 0;
           OpTaskFinish 0 (inl "text"%string);
           OpUpdate 0 [("content", "edited"); ("title", "T")]%string] init)
     !! 0) = Some (Some "edited"%string).
Proof. repeat split; reflexivity. Qed.

(** ** Deletion *)

(** C4: in every reachable state, [delete] of an identifier with no stored
    report (never created, or deleted before) fails with [NotFound] and
    changes nothing; and once a [delete] has succeeded, after any further
    history, including the remaining steps of the detached task, [get_status]
    and [delete] of that identifier fail with [NotFound]. *)
Theorem delete_then_not_found :
  ∀ (cfg : Config) (ops : list Op) (i : nat),
  let s := run cfg ops init in
  (reports s !! i = None → delete i s = (Err NotFound, s))
  ∧ (fst (delete i s) = Ok tt →
     ∀ ops', get_status i (run cfg ops' (snd (delete i s))) = Err NotFound
             ∧ fst (delete i (run cfg ops' (snd (delete i s)))) = Err NotFound).
Proof.
  intros cfg ops i s. pose proof (inv_run cfg ops) as I. fold s in I. split.
  - intros E. unfold delete. by rewrite E.
  - intros D ops'. pose proof (inv_delete i s I) as I'.
    assert (reports (run cfg ops' (snd (delete i s))) !! i = None) as G.
    { apply gone_stays_gone; [done| |].
      - unfold delete in *. destruct (reports s !! i) eqn:E; [|done]. simpl.
        by apply (inv_report_lt _ I) in E.
      - unfold delete in *. destruct (reports s !! i) eqn:E; [|done]. simpl.
        apply lookup_delete_eq. }
    unfold get_status. unfold delete at 2. by rewrite G.
Qed.

Lemma delete_then_not_found_witness :
  let s := run demo_config [OpSubmit demo_request; OpTaskStart 0] init in
  fst (delete 0 s) = Ok tt
  ∧ get_status 0
      (run demo_config [OpTaskFinish 0 (inl "late text"%string)]
         (snd (delete 0 s)))
    = Err NotFound.
Proof.
  intros s.
  assert (fst (delete 0 s) = Ok tt) as D by reflexivity.
  split; [exact D|].
  exact (proj1 (proj2 (delete_then_not_found demo_config
                         [OpSubmit demo_request; OpTaskStart 0] 0) D
                      [OpTaskFinish 0 (inl "late text"%string)])).
Defined.

(** ** Chat *)

(** C5: in every reachable state, [append] (and [ask]) to a stored report
    that is pending or running fails with [NotReady] and changes nothing;
    [NotReady] differs from [NotFound], which [append] returns exactly when
    no report is stored under the identifier; on a completed report [append]
    succeeds and the new turn goes to the end of the transcript with the next
    sequence number; and in every transcript the turn at position [k]
    (counting from 0) carries sequence [k + 1], so the values increase by
    exactly one. *)
Theorem chat_needs_completed_report :
  ∀ (cfg : Config) (ops : list Op) (i : nat) (rl : Role) (text : string),
  let s := run cfg ops init in
  (∀ r, reports s !! i = Some r →
        status r = Pending ∨ status r = Running →
        append i rl text s = (Err NotReady, s)
        ∧ ask_report cfg i text s = (Err NotReady, s))
  ∧ NotReady ≠ NotFound
  ∧ (fst (append i rl text s) = Err NotFound ↔ reports s !! i = None)
  ∧ (∀ r, reports s !! i = Some r → status r = Completed →
        ∃ t, fst (append i rl text s) = Ok t
             ∧ sequence t = S (length (transcript i s))
             ∧ transcript i (snd (append i rl text s)) = transcript i s ++ [t])
  ∧ (∀ k t, transcript i s !! k = Some t → sequence t = S k).
Proof.
  intros cfg ops i rl text s. pose proof (inv_run cfg ops) as I. fold s in I.
  pose proof (gapless_transcript s i I) as G.
  split; [|split; [done|split; [|split]]].
  - intros r E [St|St]; unfold append, ask_report; by rewrite E, St.
  - unfold append. destruct (reports s !! i) as [r|]; [|done].
    split; [|done]. by destruct (status r).
  - intros r E St. unfold append. rewrite E, St. eexists.
    split; [reflexivity|]. split.
    + simpl. by rewrite (gapless_max _ G).
    + unfold transcript at 1. simpl. by rewrite lookup_insert_eq.
  - intros k t. by apply gapless_steps.
Qed.

Lemma chat_needs_completed_report_witness :
  append 0 User "hello"
    (run demo_config [OpSubmit demo_request; OpTaskStart 0] init)
  = (Err NotReady, run demo_config [OpSubmit demo_request; OpTaskStart 0] init).
Proof.
  refine (proj1 (proj1 (chat_needs_completed_report demo_config
                          [OpSubmit demo_request; OpTaskStart 0] 0 User
                          "hello"%string) _ _ _)).
  - reflexivity.
  - right. reflexivity.
Defined.

Example transcript_after_two_rounds :
  map sequence
    (get_transcript 0
       (run demo_config
          [OpSubmit demo_request; OpTaskStart 0;
           OpTaskFinish 0 (inl "report"%string);
           OpAppend 0 User "one"%string; OpAsk 0 "two"%string] init))
  = [1; 2; 3].
Proof. reflexivity. Qed.

Example update_status_forbidden :
  fst (update 0 [("status", "done")]%string
         (run demo_config [OpSubmit demo_request] init)) = Err Forbidden.
Proof. reflexivity. Qed.

End CoreFacts.

(** * More on the client: URLs, file names, the health check *)

Module ClientMore.
Import Client Demo.

Lemma app_cons a s t : String a s +:+ t = String a (s +:+ t).
Proof. reflexivity. Qed.

Lemma app_assoc_s s t u : (s +:+ t) +:+ u = s +:+ t +:+ u.
Proof.
  induction s as [|a s IH]; [reflexivity|].
  rewrite !app_cons. by rewrite IH.
Qed.

Lemma app_empty_r s : s +:+ "" = s.
Proof.
  induction s as [|a s IH]; [reflexivity|]. rewrite app_cons. by rewrite IH.
Qed.

Lemma app_cancel_l s t u : s +:+ t = s +:+ u → t = u.
Proof.
  induction s as [|a s IH]; [done|]. rewrite !app_cons.
  intros [= H]. by apply IH.
Qed.

Lemma prefix_app s t : String.prefix s (s +:+ t) = true.
Proof.
  induction s as [|a s IH]; [by destruct t|].
  rewrite app_cons. simpl. by destruct (ascii_dec a a).
Qed.

Lemma length_app_s s t :
  String.length (s +:+ t) = (String.length s + String.length t)%nat.
Proof.
  induction s as [|a s IH]; [reflexivity|]. rewrite app_cons. simpl.
  by rewrite IH.
Qed.

(** ** [str.rfind] and [os.path.basename] on a joined path *)

Lemma rfind_join c d n :
  occurs c n = false →
  rfind c (d +:+ String c n) = Z.of_nat (String.length d).
Proof.
  intros H. apply ClientFacts.rfind_absent in H.
  induction d as [|a d IH].
  - change ("" +:+ String c n) with (String c n). simpl. rewrite H. simpl.
    by rewrite Ascii.eqb_refl.
  - rewrite app_cons. simpl rfind. rewrite IH.
    destruct (0 <=? Z.of_nat (String.length d))%Z eqn:E.
    + simpl String.length. lia.
    + apply Z.leb_gt in E. lia.
Qed.

Lemma slice_from_join d n :
  slice_from (String.length d) (d +:+ n) = n.
Proof.
  induction d as [|a d IH]; [by destruct n|]. rewrite app_cons. exact IH.
Qed.

Lemma basename_join d n :
  occurs "/"%char n = false → basename (d +:+ "/" +:+ n) = n.
Proof.
  intros H. unfold basename.
  change (d +:+ "/" +:+ n) with (d +:+ String "/"%char n).
  rewrite rfind_join by done.
  replace (Z.to_nat (Z.of_nat (String.length d) + 1))
    with (String.length (d +:+ "/")) by (rewrite length_app_s; simpl; lia).
  change (d +:+ String "/"%char n) with (d +:+ "/" +:+ n).
  rewrite <- app_assoc_s. apply slice_from_join.
Qed.

Lemma basename_plain_name n : occurs "/"%char n = false → basename n = n.
Proof.
  intros H. unfold basename.
  apply ClientFacts.rfind_absent in H. by rewrite H.
Qed.

(** ** The health check *)






Example repeated_headers_are_joined :
  headers_dict [("Set-Cookie", "a=1"); ("Server", "uvicorn");
                ("set-cookie", "b=2")]
  = [("Set-Cookie", "a=1, b=2"); ("Server", "uvicorn")].
Proof. reflexivity. Qed.

(** ** URLs *)

(** X2: an empty [report_ids] is the same call as no [report_ids]: both
    send GET [/api/reports] without a query; a non-empty value is appended
    as it is after [?report_ids=]. *)
Theorem get_reports_filter :
  ∀ (json_loads : bytes -> option JSON) (self : GPTResearcherClient),
  get_reports json_loads self (Some "") = get_reports json_loads self None
  ∧ ∀ (World : Type) (h : Handlers World) (w : World) (a : ascii)
      (ids : string),
      sent h (get_reports json_loads self None) w
      = [plain GET (base_url self +:+ "/api/reports")]
      ∧ sent h (get_reports json_loads self (Some (String a ids))) w
        = [plain GET (base_url self +:+ "/api/reports?report_ids="
                      +:+ String a ids)].
Proof.
  intros jl self. split; [reflexivity|]. intros World h w a ids.
  unfold sent, get_reports. rewrite !ClientFacts.exec_send_json.
  cbn [fst snd truthy default]. split; [done|].
  by rewrite app_assoc_s.
Qed.

(** X3: one call of a client method makes at most one call of the
    session, and the URL it hands to that call starts with [base_url].  (What
    the HTTP library then does with the URL, following a redirect or
    normalising the path, is not the client's code and not covered.) *)
Theorem session_calls_use_base_url :
  ∀ (World : Type) (h : Handlers World) (json_loads : bytes -> option JSON)
    (self : GPTResearcherClient) (call : Call) (research_id : string)
    (w : World),
  let on_base (l : list Request) :=
    (length l ≤ 1)%nat
    ∧ Forall (fun req => String.prefix (base_url self) (req_url req) = true) l
  in
  on_base (sent h (invoke json_loads self call) w)
  ∧ on_base (sent h (health_check self) w)
  ∧ on_base (sent h (get_report_docx self research_id) w).
Proof.
  intros World h jl self call rid w on_base. subst on_base. cbn beta.
  assert (∀ req, String.prefix (base_url self) (req_url req) = true →
                 (length [req] ≤ 1)%nat
                 ∧ Forall (fun req => String.prefix (base_url self)
                                         (req_url req) = true) [req]) as One.
  { intros req H. split; [done|]. by repeat constructor. }
  split; [|split].
  - destruct call; unfold sent; cbn [invoke];
      try (unfold get_report_by_id, create_report, update_report,
             delete_report, get_report_chat, add_chat_message, chat,
             list_files, delete_file;
           rewrite ClientFacts.exec_send_json; cbn [fst snd];
           apply One; apply prefix_app).
    + unfold get_reports. rewrite ClientFacts.exec_send_json. cbn [fst snd].
      apply One. destruct (truthy report_ids); cbn [req_url plain].
      * rewrite app_assoc_s. apply prefix_app.
      * apply prefix_app.
    + rewrite ClientFacts.exec_upload.
      destruct (open_rb h file_path w); cbn [fst snd].
      * apply One. apply prefix_app.
      * split; [simpl; lia | constructor].
  - unfold sent, health_check. cbn [exec].
    destruct (http h _ w). cbn [fst snd]. apply One. apply prefix_app.
  - unfold sent, get_report_docx. cbn [exec].
    destruct (http h _ w) as [resp w1].
    destruct (status_code resp =? 200)%Z; cbn [exec fst snd];
      apply One; apply prefix_app.
Qed.

(** X4: identifiers are pasted into the path as they are: asking for the
    report [id ++ "/chat"] is the very request that fetches the chat of
    [id], and a base URL with a trailing slash yields a double slash, a URL
    different from the one without it. *)
Theorem identifiers_and_base_are_pasted_verbatim :
  ∀ (json_loads : bytes -> option JSON) (self : GPTResearcherClient)
    (research_id b : string),
  get_report_by_id json_loads self (research_id +:+ "/chat")
  = get_report_chat json_loads self research_id
  ∧ ∀ (World : Type) (h : Handlers World) (w : World),
      sent h (get_report_by_id json_loads (init (Some (b +:+ "/")))
                research_id) w
      = [plain GET (b +:+ "//api/reports/" +:+ research_id)]
      ∧ sent h (get_report_by_id json_loads (init (Some (b +:+ "/")))
                  research_id) w
        ≠ sent h (get_report_by_id json_loads (init (Some b)) research_id) w.
Proof.
  intros jl self rid b. split; [reflexivity|]. intros World h w.
  unfold sent, get_report_by_id. rewrite !ClientFacts.exec_send_json.
  cbn [fst snd init default from_option id base_url]. rewrite app_assoc_s.
  split; [done|].
  intros [= H]. apply app_cancel_l in H. cbv in H. discriminate H.
Qed.

(** ** The uploaded file name *)

(** X5: for a path [dir/name] whose last component [name] contains no
    separator, [upload_file] transmits the file under exactly [name], with
    the bytes read from the path. *)
Theorem upload_sends_last_component :
  ∀ (World : Type) (h : Handlers World) (json_loads : bytes -> option JSON)
    (self : GPTResearcherClient) (dir name : string)
    (doc_path : option string) (f : bytes) (w : World),
  occurs "/"%char name = false →
  open_rb h (dir +:+ "/" +:+ name) w = Some f →
  map req_files
      (sent h (upload_file json_loads self (dir +:+ "/" +:+ name) doc_path) w)
  = [[("file", (name, f))]].
Proof.
  intros World h jl self dir name dp f w N O. unfold sent.
  rewrite ClientFacts.exec_upload, O. cbn [fst snd map req_files].
  by rewrite basename_join.
Qed.

Lemma upload_sends_last_component_witness :
  occurs "/"%char "paper.pdf" = false
  ∧ open_rb one_file ("/srv/in" +:+ "/" +:+ "paper.pdf") tt
    = Some [Byte.x25; Byte.x50]
  ∧ map req_files
        (sent one_file
           (upload_file toy_loads (init None)
              ("/srv/in" +:+ "/" +:+ "paper.pdf") (Some "./inbox")) tt)
    = [[("file", ("paper.pdf", [Byte.x25; Byte.x50]))]].
Proof.
  assert (occurs "/"%char "paper.pdf" = false) as N by reflexivity.
  assert (open_rb one_file ("/srv/in" +:+ "/" +:+ "paper.pdf") tt
          = Some [Byte.x25; Byte.x50]) as O by reflexivity.
  split; [exact N|]. split; [exact O|].
  exact (upload_sends_last_component unit one_file toy_loads (init None)
           "/srv/in" "paper.pdf" (Some "./inbox") [Byte.x25; Byte.x50] tt N O).
Defined.

(** X6: [basename] is idempotent, and it returns a name without separator
    unchanged, so a bare file name is uploaded under itself. *)
Theorem basename_idempotent :
  ∀ p : string,
  basename (basename p) = basename p
  ∧ (occurs "/"%char p = false → basename p = p).
Proof.
  intros p. split.
  - apply basename_plain_name. apply ClientFacts.slice_from_rfind.
  - apply basename_plain_name.
Qed.

Lemma basename_idempotent_witness :
  occurs "/"%char "notes.txt" = false ∧ basename "notes.txt" = "notes.txt".
Proof.
  assert (occurs "/"%char "notes.txt" = false) as N by reflexivity.
  split; [exact N|].
  exact (proj2 (basename_idempotent "notes.txt") N).
Defined.

End ClientMore.

(** * Properties of the demonstration script *)

Module DemoFacts.
Import Client Demo.

Local Open Scope list_scope.

Section Runs.

Context {World : Type} (h : Handlers World).
Variable json_loads : bytes -> option JSON.
Variable json_dumps : JSON -> string.
Variable py_str : JSON -> string.

(** Running a client method inside the script is running it with [exec]. *)
Lemma run_call {A B : Type} (p : Prog A) (k : A -> Script B) (w : World) :
  run h (call p k) w
  = match exec h p w with
    | (Returned a, tr, w1) =>
        let '(o, out, tr2, w2) := run h (k a) w1 in (o, out, tr ++ tr2, w2)
    | (Raised e, tr, w1) => (Crashed (ClientExn e), [], tr, w1)
    end.
Proof.
  revert w. induction p as [a|e|req c IH|path c IH]; intros w; cbn [call run exec].
  - by destruct (run h (k a) w) as [[[o out] tr] w2].
  - reflexivity.
  - destruct (http h req w) as [resp w1]. rewrite IH.
    destruct (exec h (c resp) w1) as [[[a|e] tr] w2]; [|reflexivity].
    by destruct (run h (k a) w2) as [[[o out] tr2] w3].
  - destruct (open_rb h path w); [apply IH | reflexivity].
Qed.

Lemma run_andthen {A B : Type} (s : Script A) (k : A -> Script B) (w : World) :
  run h (andthen s k) w
  = match run h s w with
    | (Finished a, out, tr, w1) =>
        let '(o, out2, tr2, w2) := run h (k a) w1 in
        (o, out ++ out2, tr ++ tr2, w2)
    | (Crashed e, out, tr, w1) => (Crashed e, out, tr, w1)
    end.
Proof.
  revert w. induction s as [a|e|line c IH|req c IH|path c IH]; intros w;
    cbn [andthen run].
  - by destruct (run h (k a) w) as [[[o out] tr] w2].
  - reflexivity.
  - rewrite IH. destruct (run h c w) as [[[[a|e] out] tr] w1]; [|reflexivity].
    by destruct (run h (k a) w1) as [[[o out2] tr2] w2].
  - destruct (http h req w) as [resp w1]. rewrite IH.
    destruct (run h (c resp) w1) as [[[[a|e] out] tr] w2]; [|reflexivity].
    by destruct (run h (k a) w2) as [[[o out2] tr2] w3].
  - destruct (open_rb h path w); [apply IH | reflexivity].
Qed.

(** A key is among the keys exactly when indexing finds a value. *)
Lemma dict_get_in key l :
  existsb (fun kv : string * JSON => String.eqb (fst kv) key) l
  = bool_decide (is_Some (dict_get key l)).
Proof.
  induction l as [|[k v] l IH]; [done|]. simpl.
  destruct (String.eqb k key); simpl; [done | exact IH].
Qed.

Lemma run_demo_list_reports client w :
  run h (demo_list_reports json_loads json_dumps client) w
  = match json_loads (content (fst (http h (list_request client) w))) with
    | Some j =>
        (Finished tt,
         [nl +:+ "=== Listing Reports ==="; "Reports: " +:+ json_dumps j],
         [list_request client], snd (http h (list_request client) w))
    | None =>
        (Crashed (ClientExn JSONDecodeError), [nl +:+ "=== Listing Reports ==="],
         [list_request client], snd (http h (list_request client) w))
    end.
Proof.
  unfold demo_list_reports. cbn [run]. rewrite run_call.
  unfold get_reports. cbn [truthy]. rewrite ClientFacts.exec_send_json.
  fold (list_request client). unfold decoded.
  by destruct (json_loads _).
Qed.

Lemma run_demo_create_report client w :
  run h (demo_create_report json_loads json_dumps client) w
  = let banner := [nl +:+ "=== Creating a Research Report ===";
                   "This will create a new research task.";
                   "Task: " +:+ demo_task] in
    match json_loads (content (fst (http h (create_request client) w))) with
    | Some j =>
        (match py_in "research_id" j with
         | None => Crashed TypeError
         | Some true =>
             match py_getitem "research_id" j with
             | Some v => Finished v
             | None => Crashed TypeError
             end
         | Some false => Finished JNull
         end,
         banner ++ ["Response: " +:+ json_dumps j],
         [create_request client], snd (http h (create_request client) w))
    | None =>
        (Crashed (ClientExn JSONDecodeError), banner,
         [create_request client], snd (http h (create_request client) w))
    end.
Proof.
  unfold demo_create_report. cbn [run]. rewrite run_call.
  unfold create_report. rewrite ClientFacts.exec_send_json.
  change (mkRequest POST _ _ _ _ _ _) with (create_request client).
  unfold decoded. destruct (json_loads _) as [j|]; [|reflexivity].
  cbn [run].
  destruct (py_in "research_id" j) as [[|]|]; try reflexivity.
  by destruct (py_getitem "research_id" j).
Qed.

End Runs.

(** ** [demo_create_report] and [demo_chat] *)

(** X7: [demo_create_report] sends exactly the request that
    [create_report] sends for the demonstration task with every keyword left
    at its default.  When the answer is a JSON object it returns the value
    under [research_id], or [None] when the key is missing; a body that is not
    JSON ends it with [JSONDecodeError], and a JSON null, boolean or number
    with the [TypeError] of the membership test. *)
Theorem demo_create_report_outcome :
  ∀ (World : Type) (h : Handlers World) (json_loads : bytes -> option JSON)
    (json_dumps : JSON -> string) (client : GPTResearcherClient) (w : World),
  let script := demo_create_report json_loads json_dumps client in
  let body := content (fst (http h (create_request client) w)) in
  requested h script w = [create_request client]
  ∧ requested h script w
    = sent h (create_report json_loads client demo_task None None None None
                None None None) w
  ∧ (∀ l, json_loads body = Some (JDict l) →
          ending h script w
          = Finished (default JNull (dict_get "research_id" l)))
  ∧ (json_loads body = None →
     ending h script w = Crashed (ClientExn JSONDecodeError))
  ∧ (∀ j, json_loads body = Some j →
          py_in "research_id" j = None →
          ending h script w = Crashed TypeError).
Proof.
  intros World h jl jd client w script body. subst script body.
  unfold requested, ending. rewrite run_demo_create_report. cbn zeta.
  split; [by destruct (jl _)|]. split; [|split; [|split]].
  - unfold sent, create_report. rewrite ClientFacts.exec_send_json.
    by destruct (jl _).
  - intros l E. rewrite E. cbn [fst py_in py_getitem]. rewrite dict_get_in.
    by destruct (dict_get "research_id" l).
  - intros E. by rewrite E.
  - intros j E T. by rewrite E, T.
Qed.

Lemma demo_create_report_outcome_witness :
  created_loads
    (content (fst (http created_server (create_request (init None)) tt)))
  = Some (JDict [("research_id", JStr "r1")])
  ∧ ending created_server
      (demo_create_report created_loads (fun _ => "") (init None)) tt
    = Finished (JStr "r1").
Proof.
  assert (created_loads
            (content (fst (http created_server (create_request (init None)) tt)))
          = Some (JDict [("research_id", JStr "r1")])) as E by reflexivity.
  split; [exact E|].
  exact (proj1 (proj2 (proj2 (demo_create_report_outcome unit created_server
                                created_loads (fun _ => "") (init None) tt)))
               _ E).
Defined.

(** X8: [demo_chat] posts the report text and the three fixed messages to
    [/api/chat], once; its [research_id] argument has no effect on what is
    sent, printed or returned. *)
Theorem demo_chat_ignores_research_id :
  ∀ (World : Type) (h : Handlers World) (json_loads : bytes -> option JSON)
    (json_dumps : JSON -> string) (client : GPTResearcherClient)
    (report research_id other_id : string) (w : World),
  requested h (demo_chat json_loads json_dumps client report research_id) w
  = [mkRequest POST (base_url client +:+ "/api/chat") []
       (Some (JDict [("report", JStr report);
                     ("messages", JList demo_messages)])) [] [] false]
  ∧ run h (demo_chat json_loads json_dumps client report research_id) w
    = run h (demo_chat json_loads json_dumps client report other_id) w.
Proof.
  intros World h jl jd client report rid other w. split; [|reflexivity].
  unfold requested, demo_chat. cbn [run]. rewrite run_call.
  unfold chat. rewrite ClientFacts.exec_send_json. unfold decoded.
  by destruct (jl _).
Qed.

(** ** [main] *)

(** The script up to the end of the health check: two banners, one GET, the
    status line; the health check cannot fail. *)
Lemma run_main_start {World : Type} (h : Handlers World)
    (json_loads : bytes -> option JSON) (json_dumps py_str : JSON -> string)
    (environ : gmap string string) (w : World) :
  let url := getenv environ "GPTR_API_URL" "http://localhost:11250" in
  let client := init (Some url) in
  ∃ status rest,
    run h (main json_loads json_dumps py_str environ) w
    = (let '(o, out, tr, w2) := run h rest (snd (http h (health_request client) w))
       in (o, ["Connecting to GPT-Researcher server at " +:+ url;
               nl +:+ "=== Health Check ==="; status] ++ out,
           health_request client :: tr, w2))
    ∧ rest
      = andthen (demo_list_reports json_loads json_dumps client) (fun _ =>
        andthen (demo_create_report json_loads json_dumps client)
          (fun research_id =>
        andthen
          (if py_bool research_id then
             Print (nl +:+ "Report created with ID: " +:+ py_str research_id)
               (demo_list_reports json_loads json_dumps client)
           else
             Print (nl +:+ "Failed to create report. Check the server logs for more information.")
               (Done tt))
          (fun _ => Print (nl +:+ "=== Demo Complete ===") (Done tt)))).
Proof.
  intros url client. unfold main. fold url. fold client.
  cbn [run]. rewrite run_call. unfold health_check.
  fold (health_request client). cbn [exec].
  destruct (http h (health_request client) w) as [r1 w1]. cbn [fst snd].
  eexists _, _. split; [|reflexivity]. cbn [run].
  match goal with |- context [run h ?s w1] => destruct (run h s w1) as [[[o out] tr] w2] end.
  reflexivity.
Qed.

(** X10: against a server whose every answer decodes to a JSON object,
    [main] runs to its end: it returns normally and its last line is the
    closing banner.  It then has sent either three requests and printed the
    failure notice, or, when the created report came back with a
    [research_id] that counts as true, four requests and the line naming that
    identifier. *)
Theorem main_completes_on_json_objects :
  ∀ (World : Type) (h : Handlers World) (json_loads : bytes -> option JSON)
    (json_dumps py_str : JSON -> string) (environ : gmap string string)
    (w : World),
  (∀ req w', ∃ l, json_loads (content (fst (http h req w'))) = Some (JDict l)) →
  let script := main json_loads json_dumps py_str environ in
  ending h script w = Finished tt
  ∧ last (printed h script w) = Some (nl +:+ "=== Demo Complete ===")
  ∧ ((length (requested h script w) = 3%nat
      ∧ In (nl +:+ "Failed to create report. Check the server logs for more information.")
           (printed h script w))
     ∨ (length (requested h script w) = 4%nat
        ∧ ∃ v, py_bool v = true
               ∧ In (nl +:+ "Report created with ID: " +:+ py_str v)
                    (printed h script w))).
Proof.
  intros World h jl jd ps environ w Hobj script. subst script.
  unfold ending, printed, requested.
  destruct (run_main_start h jl jd ps environ w) as (status & rest & R & ->).
  rewrite R. clear R.
  set (client := init (Some (getenv environ "GPTR_API_URL"
                               "http://localhost:11250"))).
  set (w1 := snd (http h (health_request client) w)).
  rewrite run_andthen, run_demo_list_reports.
  destruct (Hobj (list_request client) w1) as [l2 E2]. rewrite E2.
  set (w2 := snd (http h (list_request client) w1)).
  rewrite run_andthen, run_demo_create_report. cbn zeta.
  destruct (Hobj (create_request client) w2) as [l3 E3]. rewrite E3.
  set (w3 := snd (http h (create_request client) w2)).
  cbn [py_in py_getitem]. rewrite dict_get_in.
  assert (∀ v, py_bool v = false →
            let '(o, out, tr, _) :=
              run h (andthen
                       (if py_bool v
                        then Print (nl +:+ "Report created with ID: " +:+ ps v)
                               (demo_list_reports jl jd client)
                        else Print (nl +:+ "Failed to create report. Check the server logs for more information.")
                               (Done tt))
                       (fun _ => Print (nl +:+ "=== Demo Complete ===") (Done tt)))
                  w3 in
            o = Finished tt
            ∧ out = [nl +:+ "Failed to create report. Check the server logs for more information.";
                     nl +:+ "=== Demo Complete ==="]
            ∧ tr = []) as No.
  { intros v B. rewrite B. cbn [andthen run]. done. }
  assert (∀ v, py_bool v = true →
            let '(o, out, tr, _) :=
              run h (andthen
                       (if py_bool v
                        then Print (nl +:+ "Report created with ID: " +:+ ps v)
                               (demo_list_reports jl jd client)
                        else Print (nl +:+ "Failed to create report. Check the server logs for more information.")
                               (Done tt))
                       (fun _ => Print (nl +:+ "=== Demo Complete ===") (Done tt)))
                  w3 in
            o = Finished tt
            ∧ last out = Some (nl +:+ "=== Demo Complete ===")
            ∧ In (nl +:+ "Report created with ID: " +:+ ps v) out
            ∧ tr = [list_request client]) as Yes.
  { intros v B. rewrite B. rewrite run_andthen. cbn [run].
    rewrite run_demo_list_reports.
    destruct (Hobj (list_request client) w3) as [l4 E4]. rewrite E4.
    cbn [run app]. repeat split; try done. by left. }
  destruct (dict_get "research_id" l3) as [v|]; cbn [bool_decide decide_rel];
    simpl bool_decide.
  - destruct (py_bool v) eqn:B.
    + specialize (Yes v B).
      destruct (run h _ w3) as [[[o out] tr] w4].
      destruct Yes as (-> & L & I & ->). cbn [fst snd app length].
      split; [done|]. split.
      * destruct out; [discriminate L | exact L].
      * right. split; [done|]. exists v. split; [done|].
        simpl. repeat right. exact I.
    + specialize (No v B).
      destruct (run h _ w3) as [[[o out] tr] w4].
      destruct No as (-> & -> & ->). cbn [fst snd app length].
      split; [done|]. split; [done|]. left. split; [done|]. simpl. tauto.
  - specialize (No JNull eq_refl).
    destruct (run h _ w3) as [[[o out] tr] w4].
    destruct No as (-> & -> & ->). cbn [fst snd app length].
    split; [done|]. split; [done|]. left. split; [done|]. simpl. tauto.
Qed.

Lemma main_completes_on_json_objects_witness :
  (∀ req w', ∃ l,
     toy_loads (content (fst (http one_file req w'))) = Some (JDict l))
  ∧ ending one_file (main toy_loads (fun _ => "") (fun _ => "") ∅) tt
    = Finished tt.
Proof.
  assert (∀ req w', ∃ l,
            toy_loads (content (fst (http one_file req w'))) = Some (JDict l))
    as Hobj.
  { intros req w'. exists []. reflexivity. }
  split; [exact Hobj|].
  exact (proj1 (main_completes_on_json_objects unit one_file toy_loads
                  (fun _ => "") (fun _ => "") ∅ tt Hobj)).
Defined.

(** X11: when the listing of reports does not come back as JSON, [main]
    ends with [JSONDecodeError] right there: it has sent the health check and
    the listing and nothing else, so no report is created. *)
Theorem main_stops_before_creating :
  ∀ (World : Type) (h : Handlers World) (json_loads : bytes -> option JSON)
    (json_dumps py_str : JSON -> string) (environ : gmap string string)
    (w : World),
  let url := getenv environ "GPTR_API_URL" "http://localhost:11250" in
  let client := init (Some url) in
  let script := main json_loads json_dumps py_str environ in
  (∀ w', json_loads (content (fst (http h (list_request client) w'))) = None) →
  ending h script w = Crashed (ClientExn JSONDecodeError)
  ∧ requested h script w = [health_request client; list_request client]
  ∧ last (printed h script w) = Some (nl +:+ "=== Listing Reports ===").
Proof.
  intros World h jl jd ps environ w url client script Hbad. subst script.
  unfold ending, printed, requested.
  destruct (run_main_start h jl jd ps environ w) as (status & rest & R & ->).
  fold url client in R. rewrite R. clear R.
  rewrite run_andthen, run_demo_list_reports, Hbad. done.
Qed.

Lemma main_stops_before_creating_witness :
  (∀ w', no_json (content (fst (http one_file
                                  (list_request
                                     (init (Some (getenv ∅ "GPTR_API_URL"
                                                    "http://localhost:11250"))))
                                  w'))) = None)
  ∧ requested one_file (main no_json (fun _ => "") (fun _ => "") ∅) tt
    = [plain GET "http://localhost:11250/";
       plain GET "http://localhost:11250/api/reports"].
Proof.
  assert (∀ w', no_json (content (fst (http one_file
                                         (list_request
                                            (init (Some (getenv ∅ "GPTR_API_URL"
                                                           "http://localhost:11250"))))
                                         w'))) = None) as Hbad by done.
  split; [exact Hbad|].
  exact (proj1 (proj2 (main_stops_before_creating unit one_file no_json
                         (fun _ => "") (fun _ => "") ∅ tt Hbad))).
Defined.

Example main_against_a_creating_server :
  requested created_server
    (main created_loads (fun _ => "{..}") (fun _ => "r1") ∅) tt
  = [plain GET "http://localhost:11250/";
     plain GET "http://localhost:11250/api/reports";
     create_request (init None);
     plain GET "http://localhost:11250/api/reports"]
  ∧ printed created_server
      (main created_loads (fun _ => "{..}") (fun _ => "r1") ∅) tt
    = ["Connecting to GPT-Researcher server at http://localhost:11250";
       nl +:+ "=== Health Check ===";
       "Server Status: r1";
       nl +:+ "=== Listing Reports ===";
       "Reports: {..}";
       nl +:+ "=== Creating a Research Report ===";
       "This will create a new research task.";
       "Task: What are the latest developments in large language models in 2024?";
       "Response: {..}";
       nl +:+ "Report created with ID: r1";
       nl +:+ "=== Listing Reports ===";
       "Reports: {..}";
       nl +:+ "=== Demo Complete ==="].
Proof. split; reflexivity. Qed.

(** ** The remaining demonstrations *)

(** X13: when the answer to the creation is JSON but not an object,
    [demo_create_report] never yields an identifier: a list or a string gives
    [None] if [research_id] does not occur in it and [TypeError] if it does,
    and null, booleans and numbers give [TypeError]. *)
Theorem demo_create_report_needs_an_object :
  ∀ (World : Type) (h : Handlers World) (json_loads : bytes -> option JSON)
    (json_dumps : JSON -> string) (client : GPTResearcherClient) (w : World)
    (j : JSON),
  json_loads (content (fst (http h (create_request client) w))) = Some j →
  (∀ l, j ≠ JDict l) →
  ending h (demo_create_report json_loads json_dumps client) w
  = match py_in "research_id" j with
    | Some false => Finished JNull
    | _ => Crashed TypeError
    end.
Proof.
  intros World h jl jd client w j E N. unfold ending.
  rewrite run_demo_create_report. cbn zeta. rewrite E. cbn [fst].
  destruct j as [| | | | |l]; try reflexivity. by destruct (N l).
Qed.

Lemma demo_create_report_needs_an_object_witness :
  ending created_server
    (demo_create_report (fun _ => Some (JStr "research_id=r1"))
       (fun _ => "") (init None)) tt
  = Crashed TypeError.
Proof.
  refine (demo_create_report_needs_an_object unit created_server
            (fun _ => Some (JStr "research_id=r1")) (fun _ => "")
            (init None) tt (JStr "research_id=r1") eq_refl _).
  intros l. discriminate.
Defined.

(** X14: the calls that only read send GET, and no GET or DELETE of any
    call carries a JSON body or a file: a request with a body or a file is a
    POST or a PUT. *)
Theorem reads_are_get_and_bodies_are_post_or_put :
  ∀ (World : Type) (h : Handlers World) (json_loads : bytes -> option JSON)
    (self : GPTResearcherClient) (c : Call) (w : World),
  Forall (fun req =>
            (read_only c = true → req_method req = GET)
            ∧ (req_method req = GET ∨ req_method req = DELETE →
               req_json req = None ∧ req_files req = []))
         (sent h (invoke json_loads self c) w).
Proof.
  intros World h jl self c w.
  destruct c; unfold sent; cbn [invoke];
    try (unfold get_reports, get_report_by_id, create_report, update_report,
           delete_report, get_report_chat, add_chat_message, chat, list_files,
           delete_file;
         rewrite ClientFacts.exec_send_json; cbn [fst snd];
         constructor; [|constructor];
         split; cbn; [by intros | by intros [?|?]]).
  rewrite ClientFacts.exec_upload.
  destruct (open_rb h file_path w); cbn [fst snd]; [|constructor].
  constructor; [|constructor].
  split; cbn; [by intros | by intros [?|?]].
Qed.

Lemma reads_are_get_and_bodies_are_post_or_put_witness :
  read_only (CallListFiles None) = true
  ∧ Forall (fun req =>
              (read_only (CallListFiles None) = true → req_method req = GET)
              ∧ (req_method req = GET ∨ req_method req = DELETE →
                 req_json req = None ∧ req_files req = []))
           (sent one_file (invoke toy_loads (init None) (CallListFiles None))
              tt).
Proof.
  split; [reflexivity|].
  exact (reads_are_get_and_bodies_are_post_or_put unit one_file toy_loads
           (init None) (CallListFiles None) tt).
Defined.

(** ** Runs in which the session may raise *)

(** Symbolic execution of a script on a net: compute, and split on every
    answer of the net, of the decoder and of the tests of the script. *)
Ltac play_steps net jl :=
  repeat first
    [ progress cbn [play andthen call fst snd truthy asked said]
    | match goal with
      | |- context [answer net ?r ?w] =>
          destruct (answer net r w) as [[?|] ?] eqn:?
      | |- context [match jl ?x with _ => _ end] => destruct (jl x) eqn:?
      | |- context [match py_in ?k ?j with _ => _ end] =>
          destruct (py_in k j) as [[|]|] eqn:?
      | |- context [match py_getitem ?k ?j with _ => _ end] =>
          destruct (py_getitem k j) eqn:?
      | |- context [if py_bool ?v then _ else _] => destruct (py_bool v) eqn:?
      end ].

(** X9: whatever the session does and whatever the environment holds, the
    session calls of [main] that return are an initial part of the sequence
    health check, list reports, create report, list reports, made with the
    URL taken from [GPTR_API_URL] (or the default); when a call raises, it is
    the next one of that sequence and [main] stops there.  So [main] makes at
    most four calls, only GET and POST, and never an update or a delete. *)
Theorem main_calls_are_a_prefix :
  ∀ (World : Type) (net : Net World) (json_loads : bytes -> option JSON)
    (json_dumps py_str : JSON -> string) (environ : gmap string string)
    (w : World),
  let url := getenv environ "GPTR_API_URL" "http://localhost:11250" in
  let client := init (Some url) in
  let script := main json_loads json_dumps py_str environ in
  (∃ n, (n ≤ 4)%nat
        ∧ asked (events net script w) = take n (main_calls client)
        ∧ ∀ req, stopped net script w = NoResponse req →
                 main_calls client !! n = Some req)
  ∧ Forall (fun req => req_method req = GET ∨ req_method req = POST)
           (asked (events net script w)).
Proof.
  intros World net jl jd ps environ w url client script.
  assert (∃ n, (n ≤ 4)%nat
               ∧ asked (events net script w) = take n (main_calls client)
               ∧ ∀ req, stopped net script w = NoResponse req →
                        main_calls client !! n = Some req) as (n & Hn & E & S).
  { subst script. unfold events, stopped, main. fold url. fold client.
    unfold demo_list_reports, demo_create_report, health_check, get_reports,
      create_report, response_json.
    fold (health_request client) (list_request client).
    change (mkRequest POST _ _ _ _ _ _) with (create_request client).
    play_steps net jl;
      first [ exists 0%nat; split; [lia|]; split; [reflexivity|];
              intros ? [= <-]; reflexivity
            | exists 1%nat; split; [lia|]; split; [reflexivity|];
              intros ? [= <-]; reflexivity
            | exists 2%nat; split; [lia|]; split; [reflexivity|];
              first [intros ? [= <-]; reflexivity | by intros ?]
            | exists 3%nat; split; [lia|]; split; [reflexivity|];
              first [intros ? [= <-]; reflexivity | by intros ?]
            | exists 4%nat; split; [lia|]; split; [reflexivity|];
              by intros ? ]. }
  split; [by exists n|]. rewrite E. apply Forall_take.
  repeat constructor; by (left + right).
Qed.

Example main_with_an_empty_url :
  play schema_net
    (main toy_loads (fun _ => "") (fun _ => "") {["GPTR_API_URL" := ""]}) tt
  = (NoResponse (plain GET "/"),
     [Said "Connecting to GPT-Researcher server at ";
      Said (nl +:+ "=== Health Check ===")], tt).
Proof. reflexivity. Qed.

(** When every call is answered, [play] tells what [run] tells. *)
Lemma play_always {World A : Type} (h : Handlers World) (s : Script A)
    (w : World) :
  stopped (always h) s w = Ended (ending h s w)
  ∧ said (events (always h) s w) = printed h s w
  ∧ asked (events (always h) s w) = requested h s w
  ∧ snd (play (always h) s w) = snd (run h s w).
Proof.
  unfold stopped, events, ending, printed, requested. revert w.
  induction s as [a|e|line c IH|req c IH|path c IH]; intros w;
    cbn [play run always answer read].
  - done.
  - done.
  - specialize (IH w). destruct (play (always h) c w) as [[st ev] w1].
    destruct (run h c w) as [[[o out] tr] w2]. cbn [fst snd said asked] in *.
    destruct IH as (-> & -> & -> & ->). done.
  - destruct (http h req w) as [resp w0]. specialize (IH resp w0).
    destruct (play (always h) (c resp) w0) as [[st ev] w1].
    destruct (run h (c resp) w0) as [[[o out] tr] w2].
    cbn [fst snd said asked] in *. destruct IH as (-> & -> & -> & ->). done.
  - destruct (open_rb h path w); [apply IH | done].
Qed.

(** X12: [demo_get_report] and [demo_list_reports] print their banner
    first and call the session after it, once, with a GET.  If the call
    raises, the banner is the only thing that happened; if the answer is not
    JSON, the run ends with [JSONDecodeError] after the banner and the call;
    otherwise the dump of the answer is printed last and the demonstration
    returns. *)
Theorem demos_banner_precedes_call :
  ∀ (World : Type) (net : Net World) (json_loads : bytes -> option JSON)
    (json_dumps : JSON -> string) (client : GPTResearcherClient)
    (research_id : string) (w : World),
  let get := plain GET (base_url client +:+ "/api/reports/" +:+ research_id) in
  let banner := nl +:+ "=== Getting Report: " +:+ research_id +:+ " ===" in
  play net (demo_get_report json_loads json_dumps client research_id) w
  = match answer net get w with
    | (Some response, w1) =>
        match json_loads (content response) with
        | Some j =>
            (Ended (Finished tt),
             [Said banner; Asked get; Said ("Report: " +:+ json_dumps j)], w1)
        | None =>
            (Ended (Crashed (ClientExn JSONDecodeError)),
             [Said banner; Asked get], w1)
        end
    | (None, w1) => (NoResponse get, [Said banner], w1)
    end
  ∧ play net (demo_list_reports json_loads json_dumps client) w
    = match answer net (list_request client) w with
      | (Some response, w1) =>
          match json_loads (content response) with
          | Some j =>
              (Ended (Finished tt),
               [Said (nl +:+ "=== Listing Reports ===");
                Asked (list_request client);
                Said ("Reports: " +:+ json_dumps j)], w1)
          | None =>
              (Ended (Crashed (ClientExn JSONDecodeError)),
               [Said (nl +:+ "=== Listing Reports ===");
                Asked (list_request client)], w1)
          end
      | (None, w1) =>
          (NoResponse (list_request client),
           [Said (nl +:+ "=== Listing Reports ===")], w1)
      end.
Proof.
  intros World net jl jd client rid w get banner. split.
  - unfold demo_get_report, get_report_by_id, response_json.
    fold get banner. cbn [play call].
    destruct (answer net get w) as [[response|] w1]; [|done].
    by destruct (jl (content response)).
  - unfold demo_list_reports, get_reports, response_json. cbn [truthy].
    fold (list_request client). cbn [play call].
    destruct (answer net (list_request client) w) as [[response|] w1]; [|done].
    by destruct (jl (content response)).
Qed.

End DemoFacts.
